(** * Hedera-data-scripts: the DexPay contract data fetcher

    A shallow embedding of [1_fetch_data.js] and of the Analyzer stage that
    the specification describes, with the properties the specification
    states about them.

    The fetcher talks to the outside world (HTTP requests, the console, the
    clock, the file system).  A run is modelled against an explicit
    environment: the sequence of outcomes that the successive [fetch] calls
    receive, and the outcome of the serialization of the snapshot and of the
    two file-system calls.  Every function
    returns, besides its value, the chronological trace of the effects it
    performed. *)

From Stdlib Require Import ZArith List String Ascii Bool Lia DecimalString.
From stdpp Require Import base list strings gmap.

Open Scope string_scope.
Open Scope list_scope.
Open Scope Z_scope.

(** ** JavaScript values *)

(** What [response.json()] can produce.  Numbers are only ever tested for
    being zero by this program, so integers stand for them. *)
#[warnings="-register-all"]
Inductive JSON : Type :=
| JNull
| JBool (b : bool)
| JNum (n : Z)
| JStr (s : string)
| JArr (items : list JSON)
| JObj (fields : list (string * JSON)).

(** A JavaScript value of the program is [undefined] ([None]) or a JSON
    value. *)
Definition Value : Type := option JSON.

Definition undefined : Value := None.

(** An abrupt completion carries the [message] of the thrown [Error]. *)
Inductive Completion (A : Type) : Type :=
| Normal (a : A)
| Throw (message : string).
Arguments Normal {A} a.
Arguments Throw {A} message.

Definition bind {A B : Type} (c : Completion A) (k : A -> Completion B)
  : Completion B :=
  match c with
  | Normal a => k a
  | Throw e => Throw e
  end.

Notation "'let!' x ':=' c 'in' k" := (bind c (fun x => k))
  (at level 10, x name, c at level 100, k at level 200).

(** [ToBoolean]. *)
Definition truthy (v : Value) : bool :=
  match v with
  | None => false
  | Some JNull => false
  | Some (JBool b) => b
  | Some (JNum n) => negb (n =? 0)
  | Some (JStr s) => negb (String.eqb s "")
  | Some (JArr _) => true
  | Some (JObj _) => true
  end.

(** Own property of an object literal: the first binding of the key. *)
Fixpoint lookup_field (k : string) (fields : list (string * JSON)) : Value :=
  match fields with
  | [] => undefined
  | (k', v) :: fields' =>
      if String.eqb k k' then Some v else lookup_field k fields'
  end.

(** Property read [v.k], for the keys this program reads ([results],
    [transactions], [links], [next], [length]): none of them is inherited
    from a built-in prototype, except [length] on arrays and strings.
    Reading a property of [undefined] or [null] throws a [TypeError]. *)
Definition get (v : Value) (k : string) : Completion Value :=
  match v with
  | None => Throw ("Cannot read properties of undefined (reading '" +:+ k +:+ "')")
  | Some JNull => Throw ("Cannot read properties of null (reading '" +:+ k +:+ "')")
  | Some (JObj fields) => Normal (lookup_field k fields)
  | Some (JArr items) =>
      if String.eqb k "length" then Normal (Some (JNum (Z.of_nat (length items))))
      else Normal undefined
  | Some (JStr s) =>
      if String.eqb k "length" then Normal (Some (JNum (Z.of_nat (String.length s))))
      else Normal undefined
  | Some (JBool _) => Normal undefined
  | Some (JNum _) => Normal undefined
  end.

(** Optional chaining [v?.k]. *)
Definition get_optional (v : Value) (k : string) : Completion Value :=
  match v with
  | None => Normal undefined
  | Some JNull => Normal undefined
  | _ => get v k
  end.

(** [v === 0]. *)
Definition strict_eq_zero (v : Value) : bool :=
  match v with
  | Some (JNum n) => n =? 0
  | _ => false
  end.

(** Spread [...v] in an argument list: arrays give their elements, strings
    their characters, and every other value is not iterable. *)
Definition spread (v : Value) : Completion (list JSON) :=
  match v with
  | Some (JArr items) => Normal items
  | Some (JStr s) =>
      Normal (map (fun c => JStr (String c EmptyString)) (list_ascii_of_string s))
  | _ => Throw "Spread syntax requires ...iterable[Symbol.iterator] to be a function"
  end.

Definition MIRROR_NODE_HOST : string :=
  "https://mainnet-public.mirrornode.hedera.com".

(** The conditional expression of lines 77-79 (and 144-146),
    [nextLink.startsWith('http') ? nextLink : `https://...${nextLink}`]:
    only strings have the method [startsWith], on any other value the call
    throws a [TypeError]. *)
Definition absolute_url (nextLink : Value) : Completion string :=
  match nextLink with
  | Some (JStr s) =>
      Normal (if String.prefix "http" s then s else MIRROR_NODE_HOST +:+ s)
  | _ => Throw "nextLink.startsWith is not a function"
  end.

(** Number to string, as a template literal does for an integer. *)
Definition show (z : Z) : string := NilZero.string_of_int (Z.to_int z).

(** ** The environment *)

(** A [Response] of the Fetch API: [ok] is derived from the status, and
    [json()] resolves to the parsed body or rejects. *)
Record Response : Type := {
  status : Z;
  json : Completion JSON
}.

Definition ok (r : Response) : bool := (200 <=? status r) && (status r <=? 299).

(** What one [await fetch(url)] receives: a response, or a rejection. *)
Definition FetchOutcome : Type := Completion Response.

Inductive Stream : Type := ContractResults | Transactions.

(** Console lines, by the source statement that prints them. *)
Inductive Msg : Type :=
| Rule
| Title
| ContractLine (id : string)
| PeriodLine
| Fetching (s : Stream)
| Progress (s : Stream) (page : Z) (sofar : nat)
| HttpError (code : Z)
| NoMoreResults
| NextUrl (url : string)
| NoMorePages
| PageError (page : Z) (message : string)
| Found (s : Stream) (n : nat)
| Success
| SavedTo (filename : string)
| Total (s : Stream) (n : nat)
| FileSize (bytes : Z)
| Fatal (message : string).

Inductive Event : Type :=
| Stdout (m : Msg)
| Stderr (m : Msg)
| Fetch (url : string)
| Sleep (ms : Z)
| WriteFile (filename : string) (content : JSON)
| Stat (filename : string)
| Exit (code : Z)
| Truncated (filename : string).

(** Result of running an [async] function against a finite sequence of
    fetch outcomes: it returns, leaving the outcomes it did not consume, or
    it is still awaiting a fetch when the sequence ends. *)
Inductive Run (A : Type) : Type :=
| Returned (a : A) (rest : list FetchOutcome) (trace : list Event)
| Awaiting (trace : list Event).
Arguments Returned {A} a rest trace.
Arguments Awaiting {A} trace.

Definition returned {A : Type} (r : Run A) : option A :=
  match r with
  | Returned a _ _ => Some a
  | Awaiting _ => None
  end.

Definition remaining {A : Type} (r : Run A) : option (list FetchOutcome) :=
  match r with
  | Returned _ rest _ => Some rest
  | Awaiting _ => None
  end.

Definition events {A : Type} (r : Run A) : list Event :=
  match r with
  | Returned _ _ tr => tr
  | Awaiting tr => tr
  end.

(** The effects [pre] happen, then the run [r]. *)
Definition after {A : Type} (pre : list Event) (r : Run A) : Run A :=
  match r with
  | Returned a rest tr => Returned a rest (pre ++ tr)
  | Awaiting tr => Awaiting (pre ++ tr)
  end.

(** The run [r], then the effects and the value that [k] computes from its
    value. *)
Definition and_then {A B : Type} (r : Run A)
    (k : A -> list FetchOutcome -> Run B) : Run B :=
  match r with
  | Returned a rest tr => after tr (k a rest)
  | Awaiting tr => Awaiting tr
  end.

(** ** Configuration and targets *)

Definition CONTRACT_ID : string := "0.0.9392720".
Definition CONTRACT_EVM_ADDRESS : string :=
  "0x00000000000000000000000000000000008f5690".

(** Days from 1970-01-01 to a proleptic Gregorian date. *)
Definition days_from_civil (y m d : Z) : Z :=
  let y' := if m <=? 2 then y - 1 else y in
  let era := y' / 400 in
  let yoe := y' - era * 400 in
  let doy := (153 * (if 2 <? m then m - 3 else m + 9) + 2) / 5 + d - 1 in
  let doe := yoe * 365 + yoe / 4 - yoe / 100 + doy in
  era * 146097 + doe - 719468.

(** [new Date('y-m-dT00:00:00Z').getTime()], in milliseconds. *)
Definition getTime (y m d : Z) : Z := days_from_civil y m d * 86400000.

Definition DATE_START : Z := getTime 2025 10 1 / 1000.
Definition DATE_END : Z := getTime 2025 12 1 / 1000.

Definition MIRROR_NODE_BASE : string :=
  "https://mainnet-public.mirrornode.hedera.com/api/v1".

(** ** The pagination loops *)

(** How one pass through the body of [while (url)] ends. *)
Inductive Signal : Type :=
| Break
| Next (url : option string).

(** One pass through a [try] block: the effects performed, the accumulator
    as the pass leaves it, and how the block completed. *)
Record Pass : Type := {
  pass_events : list Event;
  pass_acc : list JSON;
  pass_end : Completion Signal
}.

(** [while (url)]: [null] and the empty string end the loop. *)
Definition url_truthy (url : option string) : bool :=
  match url with
  | None => false
  | Some u => negb (String.eqb u "")
  end.

Definition url_text (url : option string) : string :=
  match url with
  | None => "null"
  | Some u => u
  end.

Definition pass (evs : list Event) (acc : list JSON) (e : Completion Signal) : Pass :=
  {| pass_events := evs; pass_acc := acc; pass_end := e |}.

(** *** Phase 1: inbound activity *)

Definition results_url : string :=
  MIRROR_NODE_BASE +:+ "/contracts/" +:+ CONTRACT_ID
    +:+ "/results?timestamp=gte:" +:+ show DATE_START
    +:+ "&timestamp=lt:" +:+ show DATE_END +:+ "&limit=100&order=asc".

(** The [try] block of [fetchContractResults] (lines 56-91), given what
    [await fetch(url)] received. *)
Definition try_results (pageCount : Z) (allResults : list JSON)
    (outcome : FetchOutcome) : Pass :=
  match outcome with
  | Throw e => pass [] allResults (Throw e)
  | Normal response =>
      if negb (ok response) then
        pass [Stderr (HttpError (status response))] allResults (Normal Break)
      else
        match json response with
        | Throw e => pass [] allResults (Throw e)
        | Normal data =>
            let data := Some data in
            match (let! results := get data "results" in
                   if negb (truthy results) then Normal true
                   else let! len := get results "length" in
                        Normal (strict_eq_zero len)) with
            | Throw e => pass [] allResults (Throw e)
            | Normal true => pass [Stdout NoMoreResults] allResults (Normal Break)
            | Normal false =>
                match (let! results := get data "results" in spread results) with
                | Throw e => pass [] allResults (Throw e)
                | Normal items =>
                    let allResults := allResults ++ items in
                    match (let! links := get data "links" in
                           get_optional links "next") with
                    | Throw e => pass [] allResults (Throw e)
                    | Normal next =>
                        if truthy next then
                          match absolute_url next with
                          | Throw e => pass [] allResults (Throw e)
                          | Normal url =>
                              pass ((if Z.rem pageCount 10 =? 0
                                     then [Stdout (NextUrl url)] else [])
                                      ++ [Sleep 200])
                                allResults (Normal (Next (Some url)))
                          end
                        else
                          pass [Stdout NoMorePages; Sleep 200]
                            allResults (Normal (Next None))
                    end
                end
            end
        end
  end.

(** The [while (url)] loop of [fetchContractResults] (lines 51-96). *)
Fixpoint results_loop (inbox : list FetchOutcome) (url : option string)
    (pageCount : Z) (allResults : list JSON) : Run (list JSON) :=
  if url_truthy url then
    let pageCount := pageCount + 1 in
    let started :=
      [Stdout (Progress ContractResults pageCount (length allResults));
       Fetch (url_text url)] in
    match inbox with
    | [] => Awaiting started
    | outcome :: inbox =>
        let p := try_results pageCount allResults outcome in
        after (started ++ pass_events p)
          match pass_end p with
          | Normal (Next url) => results_loop inbox url pageCount (pass_acc p)
          | Normal Break => Returned (pass_acc p) inbox []
          | Throw e => Returned (pass_acc p) inbox [Stderr (PageError pageCount e)]
          end
    end
  else Returned allResults inbox [].

Definition fetchContractResults (inbox : list FetchOutcome) : Run (list JSON) :=
  after [Stdout (Fetching ContractResults)]
    (and_then (results_loop inbox (Some results_url) 0 [])
       (fun allResults rest =>
          Returned allResults rest
            [Stdout (Found ContractResults (length allResults))])).

(** *** Phase 2: outbound activity *)

Definition transactions_url : string :=
  MIRROR_NODE_BASE +:+ "/transactions?account.id=" +:+ CONTRACT_ID
    +:+ "&timestamp=gte:" +:+ show DATE_START
    +:+ "&timestamp=lt:" +:+ show DATE_END +:+ "&limit=100&order=asc".

(** The [try] block of [fetchTransactionsFromContract] (lines 125-158). *)
Definition try_transactions (pageCount : Z) (allTransactions : list JSON)
    (outcome : FetchOutcome) : Pass :=
  match outcome with
  | Throw e => pass [] allTransactions (Throw e)
  | Normal response =>
      if negb (ok response) then
        pass [Stderr (HttpError (status response))] allTransactions (Normal Break)
      else
        match json response with
        | Throw e => pass [] allTransactions (Throw e)
        | Normal data =>
            let data := Some data in
            match (let! transactions := get data "transactions" in
                   if negb (truthy transactions) then Normal true
                   else let! len := get transactions "length" in
                        Normal (strict_eq_zero len)) with
            | Throw e => pass [] allTransactions (Throw e)
            | Normal true =>
                pass [Stdout NoMoreResults] allTransactions (Normal Break)
            | Normal false =>
                match (let! transactions := get data "transactions" in
                       spread transactions) with
                | Throw e => pass [] allTransactions (Throw e)
                | Normal items =>
                    let allTransactions := allTransactions ++ items in
                    match (let! links := get data "links" in
                           get_optional links "next") with
                    | Throw e => pass [] allTransactions (Throw e)
                    | Normal next =>
                        if truthy next then
                          match absolute_url next with
                          | Throw e => pass [] allTransactions (Throw e)
                          | Normal url =>
                              pass ((if Z.rem pageCount 10 =? 0
                                     then [Stdout (NextUrl url)] else [])
                                      ++ [Sleep 200])
                                allTransactions (Normal (Next (Some url)))
                          end
                        else
                          pass [Stdout NoMorePages; Sleep 200]
                            allTransactions (Normal (Next None))
                    end
                end
            end
        end
  end.

(** The [while (url)] loop of [fetchTransactionsFromContract]
    (lines 120-163). *)
Fixpoint transactions_loop (inbox : list FetchOutcome) (url : option string)
    (pageCount : Z) (allTransactions : list JSON) : Run (list JSON) :=
  if url_truthy url then
    let pageCount := pageCount + 1 in
    let started :=
      [Stdout (Progress Transactions pageCount (length allTransactions));
       Fetch (url_text url)] in
    match inbox with
    | [] => Awaiting started
    | outcome :: inbox =>
        let p := try_transactions pageCount allTransactions outcome in
        after (started ++ pass_events p)
          match pass_end p with
          | Normal (Next url) =>
              transactions_loop inbox url pageCount (pass_acc p)
          | Normal Break => Returned (pass_acc p) inbox []
          | Throw e => Returned (pass_acc p) inbox [Stderr (PageError pageCount e)]
          end
    end
  else Returned allTransactions inbox [].

Definition fetchTransactionsFromContract (inbox : list FetchOutcome)
  : Run (list JSON) :=
  after [Stdout (Fetching Transactions)]
    (and_then (transactions_loop inbox (Some transactions_url) 0 [])
       (fun allTransactions rest =>
          Returned allTransactions rest
            [Stdout (Found Transactions (length allTransactions))])).

(** *** Main execution *)

(** What a run of the script meets besides the mirror node:
    - the clock read by [new Date().toISOString()];
    - whether [JSON.stringify(value, null, 2)] returns or throws a
      [RangeError], which it does on a value nested too deep or whose text
      is too long;
    - whether [fs.writeFileSync] returns or throws, and, when it throws,
      whether it [truncates]: it opens the file with flag ['w'], which
      creates or truncates it, before it writes, so that an error after the
      open leaves a file whose content is not known to be the snapshot;
    - whether [fs.statSync] returns (the size in bytes) or throws. *)
Record Env : Type := {
  inbox : list FetchOutcome;
  clock : string;
  stringify : JSON -> Completion unit;
  writeFileSync : Completion unit;
  truncates : bool;
  statSync : Completion Z
}.

(** How the process ends: [main] returns, [process.exit] is called, or the
    script is still waiting for a response. *)
Inductive Ending : Type :=
| Completed
| Exited (code : Z)
| Stalled.

Definition filename : string := "dexpay_contract_calls_2025.json".

(** The object literal of lines 189-202. *)
Definition allData (contractResults transactions : list JSON)
    (fetchedAt : string) : JSON :=
  JObj [
    ("metadata", JObj [
       ("contractId", JStr CONTRACT_ID);
       ("contractEvmAddress", JStr CONTRACT_EVM_ADDRESS);
       ("period", JStr "2025");
       ("startTimestamp", JNum DATE_START);
       ("endTimestamp", JNum DATE_END);
       ("fetchedAt", JStr fetchedAt);
       ("totalContractResults", JNum (Z.of_nat (length contractResults)));
       ("totalTransactions", JNum (Z.of_nat (length transactions)))]);
    ("contractResults", JArr contractResults);
    ("transactions", JArr transactions)].

(** The [catch] block of [main] (lines 220-223). *)
Definition fatal (e : string) : list Event := [Stderr (Fatal e); Exit 1].

Definition main (env : Env) : Ending * list Event :=
  let banner :=
    [Stdout Rule; Stdout Title; Stdout Rule; Stdout (ContractLine CONTRACT_ID);
     Stdout PeriodLine; Stdout Rule] in
  match fetchContractResults (inbox env) with
  | Awaiting tr1 => (Stalled, banner ++ tr1)
  | Returned contractResults rest tr1 =>
      match fetchTransactionsFromContract rest with
      | Awaiting tr2 => (Stalled, banner ++ tr1 ++ tr2)
      | Returned transactions _ tr2 =>
          let allData := allData contractResults transactions (clock env) in
          match stringify env allData with
          | Throw e => (Exited 1, banner ++ tr1 ++ tr2 ++ fatal e)
          | Normal _ =>
              match writeFileSync env with
              | Throw e =>
                  (Exited 1,
                   banner ++ tr1 ++ tr2
                     ++ (if truncates env then [Truncated filename] else [])
                     ++ fatal e)
              | Normal _ =>
                  let report :=
                    [WriteFile filename allData;
                     Stdout Rule; Stdout Success; Stdout Rule;
                     Stdout (SavedTo filename);
                     Stdout (Total ContractResults (length contractResults));
                     Stdout (Total Transactions (length transactions));
                     Stat filename] in
                  match statSync env with
                  | Throw e =>
                      (Exited 1, banner ++ tr1 ++ tr2 ++ report ++ fatal e)
                  | Normal size =>
                      (Completed,
                       banner ++ tr1 ++ tr2 ++ report
                         ++ [Stdout (FileSize size); Stdout Rule])
                  end
              end
          end
      end
  end.

(** The snapshots written in full: those for which [writeFileSync]
    returned. *)
Definition written (tr : list Event) : list JSON :=
  omap (fun e => match e with WriteFile _ content => Some content | _ => None end) tr.

(** The URLs requested, in order. *)
Definition requests (tr : list Event) : list string :=
  omap (fun e => match e with Fetch url => Some url | _ => None end) tr.

(** ** The pagination algorithm, once

  The two loops of the source are written out twice.  For the proofs the
  algorithm is stated once, over the name of the results field and the
  stream that labels the progress lines; each source loop is shown below to
  be an instance of it. *)

Section Pagination.

Variable stream : Stream.
Variable field : string.

Definition try_page (pageCount : Z) (acc : list JSON)
    (outcome : FetchOutcome) : Pass :=
  match outcome with
  | Throw e => pass [] acc (Throw e)
  | Normal response =>
      if negb (ok response) then
        pass [Stderr (HttpError (status response))] acc (Normal Break)
      else
        match json response with
        | Throw e => pass [] acc (Throw e)
        | Normal data =>
            let data := Some data in
            match (let! page := get data field in
                   if negb (truthy page) then Normal true
                   else let! len := get page "length" in
                        Normal (strict_eq_zero len)) with
            | Throw e => pass [] acc (Throw e)
            | Normal true => pass [Stdout NoMoreResults] acc (Normal Break)
            | Normal false =>
                match (let! page := get data field in spread page) with
                | Throw e => pass [] acc (Throw e)
                | Normal items =>
                    let acc := acc ++ items in
                    match (let! links := get data "links" in
                           get_optional links "next") with
                    | Throw e => pass [] acc (Throw e)
                    | Normal next =>
                        if truthy next then
                          match absolute_url next with
                          | Throw e => pass [] acc (Throw e)
                          | Normal url =>
                              pass ((if Z.rem pageCount 10 =? 0
                                     then [Stdout (NextUrl url)] else [])
                                      ++ [Sleep 200])
                                acc (Normal (Next (Some url)))
                          end
                        else
                          pass [Stdout NoMorePages; Sleep 200]
                            acc (Normal (Next None))
                    end
                end
            end
        end
  end.

Fixpoint paginate (inbox : list FetchOutcome) (url : option string)
    (pageCount : Z) (acc : list JSON) : Run (list JSON) :=
  if url_truthy url then
    let pageCount := pageCount + 1 in
    let started :=
      [Stdout (Progress stream pageCount (length acc)); Fetch (url_text url)] in
    match inbox with
    | [] => Awaiting started
    | outcome :: inbox =>
        let p := try_page pageCount acc outcome in
        after (started ++ pass_events p)
          match pass_end p with
          | Normal (Next url) => paginate inbox url pageCount (pass_acc p)
          | Normal Break => Returned (pass_acc p) inbox []
          | Throw e => Returned (pass_acc p) inbox [Stderr (PageError pageCount e)]
          end
    end
  else Returned acc inbox [].

Definition collect (url : string) (inbox : list FetchOutcome) : Run (list JSON) :=
  after [Stdout (Fetching stream)]
    (and_then (paginate inbox (Some url) 0 [])
       (fun all rest => Returned all rest [Stdout (Found stream (length all))])).

End Pagination.

(** ** The two collectors *)

Definition fetcher (s : Stream) : list FetchOutcome -> Run (list JSON) :=
  match s with
  | ContractResults => fetchContractResults
  | Transactions => fetchTransactionsFromContract
  end.

Definition results_field (s : Stream) : string :=
  match s with
  | ContractResults => "results"
  | Transactions => "transactions"
  end.

Definition initial_url (s : Stream) : string :=
  match s with
  | ContractResults => results_url
  | Transactions => transactions_url
  end.

(** ** The Analyzer *)

Module Analyzer.

(** Modelled from the spec: the Snapshot read by the Analyzer stage
    ([2_analyze_users.js], which is not among the sources), as section 3
    describes it: metadata and the two ordered record sequences. *)
Record Snapshot : Type := {
  metadata : JSON;
  inbound : list JSON;
  outbound : list JSON
}.

(** Modelled from the spec: the report of the Analyzer stage
    ([2_analyze_users.js], not among the sources), section 4.3: the unique
    wallet count, the two record counts and the list of wallets. *)
Record Report : Type := {
  uniqueWallets : nat;
  inboundCount : nat;
  outboundCount : nat;
  wallets : list string
}.

Section Extraction.

(** The specification names neither the record fields that hold the
    counterparty nor the canonical form; the stage is modelled over any
    choice of them. *)
Variable caller : JSON -> option string.
Variable counterparty : JSON -> option string.
Variable canonical : string -> string.

(** Modelled from the spec: the recognized forms of ContractIdentity, for
    the exclusion step of the Analyzer ([2_analyze_users.js], not among the
    sources). *)
Definition contract_forms : list string := [CONTRACT_ID; CONTRACT_EVM_ADDRESS].

(** Modelled from the spec: the exclusion test of the Analyzer
    ([2_analyze_users.js], not among the sources): the identifier equals
    ContractIdentity in one of its forms. *)
Definition is_contract (id : string) : bool :=
  bool_decide (id ∈ canonical <$> contract_forms).

(** Modelled from the spec: one step of the Analyzer's extraction loop
    ([2_analyze_users.js], not among the sources), section 4.3: a record
    without the counterparty field is skipped; otherwise the identifier is
    normalized, dropped if it is the contract, and inserted into the set. *)
Definition visit (extract : JSON -> option string) (walletSet : gset string)
    (record : JSON) : gset string :=
  match extract record with
  | None => walletSet
  | Some raw =>
      let id := canonical raw in
      if is_contract id then walletSet else {[id]} ∪ walletSet
  end.

(** Modelled from the spec: the WalletSet of the Analyzer
    ([2_analyze_users.js], not among the sources): every inbound record is
    visited for its caller, then every outbound record for its
    counterparty. *)
Definition walletSet (snapshot : Snapshot) : gset string :=
  foldl (visit counterparty)
    (foldl (visit caller) ∅ (inbound snapshot))
    (outbound snapshot).

(** Modelled from the spec: the output of the Analyzer
    ([2_analyze_users.js], not among the sources): the WalletSet and the
    derived counts. *)
Definition analyze (snapshot : Snapshot) : Report :=
  {| uniqueWallets := size (walletSet snapshot);
     inboundCount := length (inbound snapshot);
     outboundCount := length (outbound snapshot);
     wallets := elements (walletSet snapshot) |}.

(** Modelled from the spec: what the Analyzer ([2_analyze_users.js], not
    among the sources) extracts, section 4.3: the canonical identifier of
    every record that has one, inbound callers first, with their
    repetitions. *)
Definition identifiers (snapshot : Snapshot) : list string :=
  omap (fun r => canonical <$> caller r) (inbound snapshot)
  ++ omap (fun r => canonical <$> counterparty r) (outbound snapshot).

End Extraction.

End Analyzer.

(** * Vocabulary of the properties *)

(** ** Reading one outcome *)

(** The outcome is a successful response whose body is [data]. *)
Definition delivers (o : FetchOutcome) (data : JSON) : Prop :=
  exists response, o = Normal response /\ ok response = true
                   /\ json response = Normal data.

(** A page of the collection held in [field]: a non-empty array of
    records. *)
Definition page_of (field : string) (o : FetchOutcome) (items : list JSON)
    (data : JSON) : Prop :=
  delivers o data /\ get (Some data) field = Normal (Some (JArr items))
  /\ items <> [].

(** The page carries a link to a next page. *)
Definition links_to (data : JSON) (link : string) : Prop :=
  (let! links := get (Some data) "links" in get_optional links "next")
    = Normal (Some (JStr link))
  /\ link <> "".

(** The page carries no link: [links] or [next] is missing, [null] or
    otherwise falsy. *)
Definition last_page (data : JSON) : Prop :=
  exists next,
    (let! links := get (Some data) "links" in get_optional links "next")
      = Normal next
    /\ truthy next = false.

(** A full page: records and a link to the page after it. *)
Definition full_page (field : string) (o : FetchOutcome)
    (p : list JSON * string) : Prop :=
  exists data, page_of field o p.1 data /\ links_to data p.2.

(** A final page: records and no link. *)
Definition final_page (field : string) (o : FetchOutcome) (items : list JSON)
  : Prop :=
  exists data, page_of field o items data /\ last_page data.

(** A successful response whose results array is empty or absent. *)
Definition empty_page (field : string) (o : FetchOutcome) : Prop :=
  exists data results,
    delivers o data /\ get (Some data) field = Normal results
    /\ (truthy results = false \/ results = Some (JArr [])).

(** A failed request: the fetch rejects, the status is not a success, or
    the body cannot be parsed. *)
Definition failed (o : FetchOutcome) : Prop :=
  (exists e, o = Throw e)
  \/ (exists response, o = Normal response /\ ok response = false)
  \/ (exists response e, o = Normal response /\ ok response = true
                         /\ json response = Throw e).

(** The URL the loop requests after a page that links to [link]. *)
Definition resolve (link : string) : string :=
  if String.prefix "http" link then link else MIRROR_NODE_HOST +:+ link.

(** The URL the loop holds after following the links of [ps] from [url]. *)
Fixpoint cursor (url : string) (ps : list (list JSON * string)) : string :=
  match ps with
  | [] => url
  | p :: ps => cursor (resolve p.2) ps
  end.

(** The URLs it requested on the way. *)
Fixpoint visited (url : string) (ps : list (list JSON * string)) : list string :=
  match ps with
  | [] => []
  | p :: ps => url :: visited (resolve p.2) ps
  end.

(** How a loop leaves a sequence of full pages: [aborted] by a failed
    request, or at the natural end of the feed (an empty page, or a last
    page of records without a next link). *)
Inductive stops (field : string) : FetchOutcome -> list JSON -> bool -> Prop :=
| stops_failed o : failed o -> stops field o [] true
| stops_empty o : empty_page field o -> stops field o [] false
| stops_final o items : final_page field o items -> stops field o items false.


(** [spaced owed tr]: no request of [tr] is issued while a delay is still
    [owed], a delay being owed from each request until the next
    [sleep(200)]. *)
Fixpoint spaced (owed : bool) (tr : list Event) : bool :=
  match tr with
  | [] => true
  | Fetch _ :: tr => negb owed && spaced true tr
  | Sleep ms :: tr => spaced (if ms =? 200 then false else owed) tr
  | _ :: tr => spaced owed tr
  end.

(** Renaming the results field: [results] becomes [transactions]; a field
    already called [transactions] takes the name [results], so that the two
    stay distinct. *)
Definition rename_key (k : string) : string :=
  if String.eqb k "results" then "transactions"
  else if String.eqb k "transactions" then "results"
  else k.

Definition rename_data (data : JSON) : JSON :=
  match data with
  | JObj fields => JObj (map (fun kv => (rename_key kv.1, kv.2)) fields)
  | _ => data
  end.

Definition rename_outcome (o : FetchOutcome) : FetchOutcome :=
  match o with
  | Throw e => Throw e
  | Normal response =>
      Normal {| status := status response;
                json := match json response with
                        | Throw e => Throw e
                        | Normal data => Normal (rename_data data)
                        end |}
  end.

(** Two completions agree up to the text of the error message. *)
Definition agree {A : Type} (c1 c2 : Completion A) : Prop :=
  match c1, c2 with
  | Normal a1, Normal a2 => a1 = a2
  | Throw _, Throw _ => True
  | _, _ => False
  end.

(** [needle] occurs in [hay]. *)
Fixpoint contains (needle hay : string) : bool :=
  String.prefix needle hay
  || match hay with
     | EmptyString => false
     | String _ hay' => contains needle hay'
     end.

(** The names of the fields of the snapshot's [metadata] object. *)
Definition metadata_keys (snapshot : JSON) : list string :=
  match get (Some snapshot) "metadata" with
  | Normal (Some (JObj fields)) => fields.*1
  | _ => []
  end.

(** A successful response with an empty body object. *)
Definition blank : FetchOutcome :=
  Normal {| status := 200; json := Normal (JObj []) |}.

(** What one outcome adds to the accumulator: the spread of the results
    field of a successful response's body, and nothing when the request
    failed or the field cannot be spread. *)
Definition contribution (field : string) (o : FetchOutcome) : list JSON :=
  match o with
  | Throw _ => []
  | Normal response =>
      if ok response then
        match (let! data := json response in
               let! page := get (Some data) field in
               spread page) with
        | Normal items => items
        | Throw _ => []
        end
      else []
  end.

(** The delays inserted, in order. *)
Definition delays (tr : list Event) : list Z :=
  omap (fun e => match e with Sleep ms => Some ms | _ => None end) tr.

(** The body is a JSON object. *)
Definition is_object (data : JSON) : bool :=
  match data with
  | JObj _ => true
  | _ => false
  end.

(** The page carries a next link that is truthy and not a string. *)
Definition links_to_non_string (data : JSON) : Prop :=
  exists next,
    (let! links := get (Some data) "links" in get_optional links "next")
      = Normal next
    /\ truthy next = true
    /\ (forall link, next <> Some (JStr link)).

(** The names of the files written or truncated, in order. *)
Definition files (tr : list Event) : list string :=
  omap (fun e => match e with
                 | WriteFile name _ => Some name
                 | Truncated name => Some name
                 | _ => None
                 end) tr.

(** The console lines and requests that open a collector's run. *)
Definition opening (s : Stream) (url : string) : list Event :=
  [Stdout (Fetching s); Stdout (Progress s 1 0); Fetch url].

(** The console lines that open [main]. *)
Definition banner : list Event :=
  [Stdout Rule; Stdout Title; Stdout Rule; Stdout (ContractLine CONTRACT_ID);
   Stdout PeriodLine; Stdout Rule].

(** ** Sample data *)

Definition sample_record (hash : string) : JSON :=
  JObj [("hash", JStr hash); ("from", JStr "0x00000000000000000000000000000000000003e9")].

(** A successful response holding [items] under [field] and [next] as its
    next link. *)
Definition sample_page (field : string) (items : list JSON) (next : JSON)
  : FetchOutcome :=
  Normal {| status := 200;
            json := Normal (JObj [(field, JArr items);
                                  ("links", JObj [("next", next)])]) |}.

Definition sample_link : string :=
  "/api/v1/contracts/0.0.9392720/results?limit=100&order=asc&timestamp=gt:1759280000.000000001".

Definition sample_error : FetchOutcome :=
  Normal {| status := 500; json := Throw "Unexpected token < in JSON at position 0" |}.

(** An environment with a fixed clock, in which the snapshot can be
    serialized and a failing write leaves a truncated file. *)
Definition sample_env (outcomes : list FetchOutcome)
    (write : Completion unit) (stat : Completion Z) : Env :=
  {| inbox := outcomes;
     clock := "2025-12-02T09:30:00.000Z";
     stringify := fun _ => Normal tt;
     writeFileSync := write;
     truncates := true;
     statSync := stat |}.

(** An environment in which the snapshot is too large to be serialized. *)
Definition sample_env_too_large (outcomes : list FetchOutcome) : Env :=
  {| inbox := outcomes;
     clock := "2025-12-02T09:30:00.000Z";
     stringify := fun _ => Throw "Invalid string length";
     writeFileSync := Normal tt;
     truncates := false;
     statSync := Normal 0 |}.

(** A string-valued field of a record. *)
Definition text_field (k : string) (record : JSON) : option string :=
  match get (Some record) k with
  | Normal (Some (JStr s)) => Some s
  | _ => None
  end.

Definition sample_snapshot : Analyzer.Snapshot :=
  {| Analyzer.metadata := JObj [("contractId", JStr CONTRACT_ID)];
     Analyzer.inbound :=
       [JObj [("from", JStr "0.0.1001")];
        JObj [("from", JStr "0.0.1001")];
        JObj [("from", JStr "0.0.9392720")];
        JObj [("hash", JStr "0xa4")]];
     Analyzer.outbound :=
       [JObj [("to", JStr "0.0.1002")];
        JObj [("to", JStr "0.0.1001")];
        JObj [("to", JStr "0x00000000000000000000000000000000008f5690")]] |}.

(** * Properties *)

(** ** Each source loop is the pagination algorithm *)

Lemma results_loop_paginate inbox url pageCount allResults :
  results_loop inbox url pageCount allResults
  = paginate ContractResults "results" inbox url pageCount allResults.
Proof.
  revert url pageCount allResults.
  induction inbox as [|outcome inbox IH]; intros url pageCount allResults;
    simpl; [reflexivity|].
  destruct (url_truthy url); [|reflexivity].
  change (try_results (pageCount + 1) allResults outcome)
    with (try_page "results" (pageCount + 1) allResults outcome).
  destruct (pass_end _) as [[|url']|e]; [reflexivity| |reflexivity].
  now rewrite IH.
Qed.

Lemma transactions_loop_paginate inbox url pageCount allTransactions :
  transactions_loop inbox url pageCount allTransactions
  = paginate Transactions "transactions" inbox url pageCount allTransactions.
Proof.
  revert url pageCount allTransactions.
  induction inbox as [|outcome inbox IH]; intros url pageCount allTransactions;
    simpl; [reflexivity|].
  destruct (url_truthy url); [|reflexivity].
  change (try_transactions (pageCount + 1) allTransactions outcome)
    with (try_page "transactions" (pageCount + 1) allTransactions outcome).
  destruct (pass_end _) as [[|url']|e]; [reflexivity| |reflexivity].
  now rewrite IH.
Qed.

Lemma fetchContractResults_collect inbox :
  fetchContractResults inbox = collect ContractResults "results" results_url inbox.
Proof.
  unfold fetchContractResults, collect. now rewrite results_loop_paginate.
Qed.

Lemma fetchTransactionsFromContract_collect inbox :
  fetchTransactionsFromContract inbox
  = collect Transactions "transactions" transactions_url inbox.
Proof.
  unfold fetchTransactionsFromContract, collect.
  now rewrite transactions_loop_paginate.
Qed.

(** ** One pass of the loop body *)

Lemma resolve_truthy link : url_truthy (Some (resolve link)) = true.
Proof.
  unfold resolve, url_truthy.
  destruct (String.prefix "http" link) eqn:Hp; [|reflexivity].
  destruct link; [discriminate Hp|reflexivity].
Qed.

Lemma nonempty_truthy (s : string) : s <> "" -> negb (String.eqb s "") = true.
Proof.
  intros Hs. destruct (String.eqb_spec s ""); [contradiction|reflexivity].
Qed.

Lemma nonempty_length {A : Type} (l : list A) :
  l <> [] -> (Z.of_nat (length l) =? 0) = false.
Proof. destruct l; [congruence|intros _; reflexivity]. Qed.
Section Passes.

Variable field : string.
Variables (pageCount : Z) (acc : list JSON).

(** The first half of the [try] block on a page of records. *)
Lemma try_page_records o items data :
  page_of field o items data ->
  try_page field pageCount acc o
  = match (let! links := get (Some data) "links" in get_optional links "next") with
    | Throw e => pass [] (acc ++ items) (Throw e)
    | Normal next =>
        if truthy next then
          match absolute_url next with
          | Throw e => pass [] (acc ++ items) (Throw e)
          | Normal url =>
              pass ((if Z.rem pageCount 10 =? 0
                     then [Stdout (NextUrl url)] else []) ++ [Sleep 200])
                (acc ++ items) (Normal (Next (Some url)))
          end
        else pass [Stdout NoMorePages; Sleep 200] (acc ++ items) (Normal (Next None))
    end.
Proof.
  intros ((response & -> & Hok & Hjson) & Hget & Hne).
  unfold try_page. rewrite Hok, Hjson. cbn [negb].
  rewrite Hget. cbn [bind truthy negb get String.eqb Ascii.eqb Bool.eqb strict_eq_zero spread].
  now rewrite (nonempty_length _ Hne).
Qed.

Lemma try_page_full o p :
  full_page field o p ->
  try_page field pageCount acc o
  = pass ((if Z.rem pageCount 10 =? 0
           then [Stdout (NextUrl (resolve p.2))] else []) ++ [Sleep 200])
      (acc ++ p.1) (Normal (Next (Some (resolve p.2)))).
Proof.
  intros (data & Hpage & Hlink & Hne).
  rewrite (try_page_records _ _ _ Hpage), Hlink.
  cbn [truthy]. now rewrite (nonempty_truthy _ Hne).
Qed.

Lemma try_page_final o items :
  final_page field o items ->
  try_page field pageCount acc o
  = pass [Stdout NoMorePages; Sleep 200] (acc ++ items) (Normal (Next None)).
Proof.
  intros (data & Hpage & next & Hlink & Hfalsy).
  now rewrite (try_page_records _ _ _ Hpage), Hlink, Hfalsy.
Qed.

Lemma try_page_empty o :
  empty_page field o ->
  try_page field pageCount acc o = pass [Stdout NoMoreResults] acc (Normal Break).
Proof.
  intros (data & results & (response & -> & Hok & Hjson) & Hget & Hempty).
  unfold try_page. rewrite Hok, Hjson. cbn [negb]. rewrite Hget.
  destruct Hempty as [Hfalsy | ->].
  - cbn [bind]. now rewrite Hfalsy.
  - reflexivity.
Qed.

(** A failed request leaves the accumulator alone and ends the loop, by
    [break] or through the [catch] block. *)
Lemma try_page_failed o :
  failed o ->
  exists evs e,
    try_page field pageCount acc o = pass evs acc e
    /\ (e = Normal Break \/ exists m, e = Throw m)
    /\ requests evs = [].
Proof.
  intros [(e & ->) | [(response & -> & Hok) | (response & e & -> & Hok & Hjson)]];
    unfold try_page.
  - exists [], (Throw e). eauto.
  - rewrite Hok. cbn [negb]. eexists _, _. split; [reflexivity|]. eauto.
  - rewrite Hok, Hjson. cbn [negb]. exists [], (Throw e). eauto.
Qed.

End Passes.

(** ** Running the loop *)

Lemma after_after {A : Type} (tr1 tr2 : list Event) (r : Run A) :
  after tr1 (after tr2 r) = after (tr1 ++ tr2) r.
Proof. destruct r; simpl; now rewrite app_assoc. Qed.

Lemma after_nil {A : Type} (r : Run A) : after [] r = r.
Proof. now destruct r. Qed.

Lemma returned_after {A : Type} (tr : list Event) (r : Run A) :
  returned (after tr r) = returned r.
Proof. now destruct r. Qed.

Lemma remaining_after {A : Type} (tr : list Event) (r : Run A) :
  remaining (after tr r) = remaining r.
Proof. now destruct r. Qed.

Lemma events_after {A : Type} (tr : list Event) (r : Run A) :
  events (after tr r) = tr ++ events r.
Proof. now destruct r. Qed.

Lemma requests_app tr1 tr2 : requests (tr1 ++ tr2) = requests tr1 ++ requests tr2.
Proof. apply omap_app. Qed.

Lemma visited_cursor url ps :
  visited url ps ++ [cursor url ps] = url :: map (fun p => resolve p.2) ps.
Proof.
  revert url; induction ps as [|p ps IH]; intros url; simpl; [reflexivity|].
  now rewrite IH.
Qed.

Lemma cursor_truthy url ps :
  url_truthy (Some url) = true -> url_truthy (Some (cursor url ps)) = true.
Proof.
  revert url; induction ps as [|p ps IH]; intros url Hurl; simpl; [exact Hurl|].
  apply IH, resolve_truthy.
Qed.

Section Loops.

Variable stream : Stream.
Variable field : string.

Lemma paginate_null inbox pageCount acc :
  paginate stream field inbox None pageCount acc = Returned acc inbox [].
Proof. now destruct inbox. Qed.

Lemma paginate_full o p inbox url pageCount acc :
  url_truthy (Some url) = true ->
  full_page field o p ->
  exists tr,
    paginate stream field (o :: inbox) (Some url) pageCount acc
    = after tr (paginate stream field inbox (Some (resolve p.2))
                  (pageCount + 1) (acc ++ p.1))
    /\ requests tr = [url].
Proof.
  intros Hurl Hfull. cbn [paginate]. rewrite Hurl.
  rewrite (try_page_full _ _ _ _ _ Hfull). cbn [pass pass_events pass_end pass_acc].
  eexists; split; [reflexivity|].
  destruct (Z.rem (pageCount + 1) 10 =? 0); reflexivity.
Qed.

(** Full pages are consumed one after the other, each appending its
    records and moving the cursor to the link it carries. *)
Lemma paginate_full_pages os ps :
  Forall2 (full_page field) os ps ->
  forall inbox url pageCount acc,
    url_truthy (Some url) = true ->
    exists tr,
      paginate stream field (os ++ inbox) (Some url) pageCount acc
      = after tr (paginate stream field inbox (Some (cursor url ps))
                    (pageCount + Z.of_nat (length os)) (acc ++ concat ps.*1))
      /\ requests tr = visited url ps.
Proof.
  induction 1 as [|o p os ps Hfull _ IH]; intros inbox url pageCount acc Hurl.
  - exists []. cbn [app length concat fmap list_fmap cursor visited].
    now rewrite after_nil, Z.add_0_r, app_nil_r.
  - destruct (paginate_full o p (os ++ inbox) url pageCount acc Hurl Hfull)
      as (tr1 & Hstep & Hreq1).
    destruct (IH inbox (resolve p.2) (pageCount + 1) (acc ++ p.1)
                (resolve_truthy _)) as (tr2 & Hrest & Hreq2).
    exists (tr1 ++ tr2). split.
    + change ((o :: os) ++ inbox) with (o :: (os ++ inbox)).
      rewrite Hstep, Hrest, after_after. f_equal. f_equal.
      * rewrite length_cons. lia.
      * cbn [fmap list_fmap concat]. now rewrite app_assoc.
    + now rewrite requests_app, Hreq1, Hreq2.
Qed.

Lemma paginate_final o items inbox url pageCount acc :
  url_truthy (Some url) = true ->
  final_page field o items ->
  exists tr,
    paginate stream field (o :: inbox) (Some url) pageCount acc
    = Returned (acc ++ items) inbox tr
    /\ requests tr = [url].
Proof.
  intros Hurl Hfinal. cbn [paginate]. rewrite Hurl.
  rewrite (try_page_final _ _ _ _ _ Hfinal). cbn [pass pass_events pass_end pass_acc].
  rewrite paginate_null. eexists; split; reflexivity.
Qed.

Lemma paginate_empty o inbox url pageCount acc :
  url_truthy (Some url) = true ->
  empty_page field o ->
  exists tr,
    paginate stream field (o :: inbox) (Some url) pageCount acc
    = Returned acc inbox tr
    /\ requests tr = [url].
Proof.
  intros Hurl Hempty. cbn [paginate]. rewrite Hurl.
  rewrite (try_page_empty _ _ _ _ Hempty). cbn [pass pass_events pass_end pass_acc].
  eexists; split; reflexivity.
Qed.

Lemma paginate_failed o inbox url pageCount acc :
  url_truthy (Some url) = true ->
  failed o ->
  exists tr,
    paginate stream field (o :: inbox) (Some url) pageCount acc
    = Returned acc inbox tr
    /\ requests tr = [url].
Proof.
  intros Hurl Hfailed. cbn [paginate]. rewrite Hurl.
  destruct (try_page_failed field (pageCount + 1) acc o Hfailed)
    as (evs & e & -> & He & Hreq).
  cbn [pass pass_events pass_end pass_acc].
  destruct He as [-> | (m & ->)]; (eexists; split; [reflexivity|]);
    cbn [after]; rewrite !requests_app, Hreq; reflexivity.
Qed.

(** Whatever ends the loop after a run of full pages, [collect] returns
    what the loop returned. *)
Lemma collect_full_pages os ps o inbox url last tr :
  url_truthy (Some url) = true ->
  Forall2 (full_page field) os ps ->
  (forall u pageCount acc,
      url_truthy (Some u) = true ->
      exists tr,
        paginate stream field (o :: inbox) (Some u) pageCount acc
        = Returned (acc ++ last) inbox tr
        /\ requests tr = [u]) ->
  tr = events (collect stream field url (os ++ o :: inbox)) ->
  returned (collect stream field url (os ++ o :: inbox))
  = Some (concat ps.*1 ++ last)
  /\ remaining (collect stream field url (os ++ o :: inbox)) = Some inbox
  /\ requests tr = url :: map (fun p => resolve p.2) ps.
Proof.
  intros Hurl Hfull Hlast ->. unfold collect.
  destruct (paginate_full_pages os ps Hfull (o :: inbox) url 0 [] Hurl)
    as (tr1 & -> & Hreq1).
  destruct (Hlast (cursor url ps) (0 + Z.of_nat (length os)) ([] ++ concat ps.*1)
              (cursor_truthy url ps Hurl)) as (tr2 & -> & Hreq2).
  cbn [after and_then returned remaining events].
  repeat split.
  do 3 rewrite requests_app. rewrite Hreq1, Hreq2. cbn [requests omap list_omap app].
  rewrite app_nil_r. apply visited_cursor.
Qed.

End Loops.

Lemma fetcher_collect s inbox :
  fetcher s inbox = collect s (results_field s) (initial_url s) inbox.
Proof.
  destruct s; [apply fetchContractResults_collect
              |apply fetchTransactionsFromContract_collect].
Qed.

Lemma initial_url_truthy s : url_truthy (Some (initial_url s)) = true.
Proof. destruct s; reflexivity. Qed.

(** ** Delays between requests *)

Lemma spaced_owed mid u t :
  spaced true (mid ++ Fetch u :: t) = true -> In (Sleep 200) mid.
Proof.
  induction mid as [|e mid IH]; cbn [app spaced negb andb]; [discriminate|].
  destruct e as [| | |ms| | | |]; try discriminate;
    try (intros H; right; exact (IH H)).
  destruct (Z.eqb_spec ms 200) as [->|_]; intros H; [now left|right; exact (IH H)].
Qed.

Lemma spaced_sound tr :
  forall owed, spaced owed tr = true ->
  forall t1 u1 mid u2 t2,
    tr = t1 ++ Fetch u1 :: mid ++ Fetch u2 :: t2 -> In (Sleep 200) mid.
Proof.
  intros owed H t1 u1 mid u2 t2 ->. revert owed H.
  induction t1 as [|e t1 IH]; intros owed; cbn [app spaced].
  - intros H. apply andb_true_iff in H as [_ H]. eapply spaced_owed, H.
  - destruct e; try apply IH.
    intros H. apply andb_true_iff in H as [_ H]. eapply IH, H.
Qed.

Lemma spaced_snoc_stdout owed tr m :
  spaced owed (tr ++ [Stdout m]) = spaced owed tr.
Proof.
  revert owed; induction tr as [|e tr IH]; intros owed; cbn [app spaced];
    [reflexivity|].
  destruct e; try apply IH. now rewrite IH.
Qed.

Lemma paginate_spaced stream field inbox :
  forall url pageCount acc,
    spaced false (events (paginate stream field inbox url pageCount acc)) = true.
Proof.
  induction inbox as [|o inbox IH]; intros url pageCount acc; cbn [paginate];
    destruct (url_truthy url); try reflexivity.
  rewrite events_after.
  unfold try_page, bind.
  repeat case_match; simplify_eq/=; try reflexivity; try apply IH.
Qed.

Lemma fetcher_spaced s inbox : spaced false (events (fetcher s inbox)) = true.
Proof.
  rewrite fetcher_collect. unfold collect.
  pose proof (paginate_spaced s (results_field s) inbox
                (Some (initial_url s)) 0 []) as H.
  destruct (paginate _ _ _ _ _ _) as [a rest tr|tr];
    cbn [and_then after events app spaced] in *; [|exact H].
  now rewrite spaced_snoc_stdout.
Qed.

(** ** Pagination: completeness, partial failure, termination *)

Lemma length_pages (ps : list (list JSON * string)) :
  length (concat ps.*1) = sum_list_with (fun p => length p.1) ps.
Proof.
  induction ps as [|p ps IH]; cbn [fmap list_fmap concat sum_list_with];
    [reflexivity|].
  now rewrite length_app, IH.
Qed.

(** C1. On a sequence of successful responses, each holding a non-empty
    results array, all but the last one linking to a next page and the last
    one carrying no link, each collector returns the concatenation of the
    pages' records in their order: nothing is dropped and nothing is taken
    twice, and the number of records is the sum of the page sizes.  It
    requests the initial URL and then exactly the links it was given, and
    leaves the outcomes after the last page unread. *)
Theorem pagination_complete (s : Stream) (os : list FetchOutcome)
    (ps : list (list JSON * string)) (o : FetchOutcome) (items : list JSON)
    (rest : list FetchOutcome) :
  Forall2 (full_page (results_field s)) os ps ->
  final_page (results_field s) o items ->
  returned (fetcher s (os ++ o :: rest)) = Some (concat ps.*1 ++ items)
  /\ length <$> returned (fetcher s (os ++ o :: rest))
     = Some (sum_list_with (fun p => length p.1) ps + length items)%nat
  /\ remaining (fetcher s (os ++ o :: rest)) = Some rest
  /\ requests (events (fetcher s (os ++ o :: rest)))
     = initial_url s :: map (fun p => resolve p.2) ps.
Proof.
  intros Hfull Hfinal.
  assert (H : returned (fetcher s (os ++ o :: rest)) = Some (concat ps.*1 ++ items)
              /\ remaining (fetcher s (os ++ o :: rest)) = Some rest
              /\ requests (events (fetcher s (os ++ o :: rest)))
                 = initial_url s :: map (fun p => resolve p.2) ps).
  { rewrite fetcher_collect.
    eapply collect_full_pages; eauto using initial_url_truthy.
    intros u pageCount acc Hu. now apply paginate_final. }
  destruct H as (Hret & Hrem & Hreq).
  split; [exact Hret|]. split; [|split; [exact Hrem|exact Hreq]].
  rewrite Hret. cbn [fmap option_fmap option_map].
  now rewrite length_app, length_pages.
Qed.

Lemma pagination_complete_witness :
  returned (fetchContractResults
              [sample_page "results" [sample_record "0xa1"; sample_record "0xa2"]
                 (JStr sample_link);
               sample_page "results" [sample_record "0xa3"] JNull])
  = Some [sample_record "0xa1"; sample_record "0xa2"; sample_record "0xa3"].
Proof.
  refine (proj1 (pagination_complete ContractResults
                   [sample_page "results" [sample_record "0xa1"; sample_record "0xa2"]
                      (JStr sample_link)]
                   [([sample_record "0xa1"; sample_record "0xa2"], sample_link)]
                   (sample_page "results" [sample_record "0xa3"] JNull)
                   [sample_record "0xa3"] [] _ _)).
  - constructor; [|constructor].
    eexists; split; [split; [eexists; split; [reflexivity|split; reflexivity]
                            |split; [reflexivity|discriminate]]
                    |split; [reflexivity|discriminate]].
  - eexists; split; [split; [eexists; split; [reflexivity|split; reflexivity]
                            |split; [reflexivity|discriminate]]
                    |eexists; split; reflexivity].
Defined.

(** C2. When the request for page k fails (the fetch rejects, the status is
    not a success, or the body does not parse) after k-1 full pages, each
    collector makes no further request, and returns normally the records of
    pages 1..k-1. *)
Theorem failure_keeps_partial_pages (s : Stream) (os : list FetchOutcome)
    (ps : list (list JSON * string)) (o : FetchOutcome)
    (rest : list FetchOutcome) :
  Forall2 (full_page (results_field s)) os ps ->
  failed o ->
  returned (fetcher s (os ++ o :: rest)) = Some (concat ps.*1)
  /\ remaining (fetcher s (os ++ o :: rest)) = Some rest
  /\ requests (events (fetcher s (os ++ o :: rest)))
     = initial_url s :: map (fun p => resolve p.2) ps.
Proof.
  intros Hfull Hfailed. rewrite fetcher_collect.
  rewrite <- (app_nil_r (concat ps.*1)).
  eapply collect_full_pages; eauto using initial_url_truthy.
  intros u pageCount acc Hu. rewrite app_nil_r. now apply paginate_failed.
Qed.

Lemma failure_keeps_partial_pages_witness :
  returned (fetchTransactionsFromContract
              [sample_page "transactions" [sample_record "0xb1"] (JStr sample_link);
               sample_page "transactions" [sample_record "0xb2"] (JStr sample_link);
               sample_error;
               sample_page "transactions" [sample_record "0xb4"] JNull])
  = Some [sample_record "0xb1"; sample_record "0xb2"].
Proof.
  refine (proj1 (failure_keeps_partial_pages Transactions
                   [sample_page "transactions" [sample_record "0xb1"] (JStr sample_link);
                    sample_page "transactions" [sample_record "0xb2"] (JStr sample_link)]
                   [([sample_record "0xb1"], sample_link);
                    ([sample_record "0xb2"], sample_link)]
                   sample_error
                   [sample_page "transactions" [sample_record "0xb4"] JNull] _ _)).
  - repeat constructor;
      (eexists; split; [split; [eexists; split; [reflexivity|split; reflexivity]
                               |split; [reflexivity|discriminate]]
                       |split; [reflexivity|discriminate]]).
  - right; left. eexists; split; reflexivity.
Defined.

(** C3. When a successful response carries an empty or absent results
    array, each collector stops there: it returns the records of the pages
    before it and reads no further outcome.  With no page before it, an
    empty first page gives the empty result. *)
Theorem empty_page_terminates (s : Stream) (os : list FetchOutcome)
    (ps : list (list JSON * string)) (o : FetchOutcome)
    (rest : list FetchOutcome) :
  Forall2 (full_page (results_field s)) os ps ->
  empty_page (results_field s) o ->
  returned (fetcher s (os ++ o :: rest)) = Some (concat ps.*1)
  /\ remaining (fetcher s (os ++ o :: rest)) = Some rest
  /\ requests (events (fetcher s (os ++ o :: rest)))
     = initial_url s :: map (fun p => resolve p.2) ps.
Proof.
  intros Hfull Hempty. rewrite fetcher_collect.
  rewrite <- (app_nil_r (concat ps.*1)).
  eapply collect_full_pages; eauto using initial_url_truthy.
  intros u pageCount acc Hu. rewrite app_nil_r. now apply paginate_empty.
Qed.

Lemma empty_page_terminates_witness :
  returned (fetchContractResults
              [sample_page "results" [] JNull;
               sample_page "results" [sample_record "0xa1"] JNull])
  = Some [].
Proof.
  refine (proj1 (empty_page_terminates ContractResults [] []
                   (sample_page "results" [] JNull)
                   [sample_page "results" [sample_record "0xa1"] JNull] _ _)).
  - constructor.
  - eexists _, _. split; [eexists; split; [reflexivity|split; reflexivity]|].
    split; [reflexivity|now right].
Defined.

(** C8. In the trace of each collector, whatever the responses, a
    [sleep(200)] lies between any two requests: no follow-up request is
    issued before the delay that follows the previous one. *)
Theorem delay_between_requests (s : Stream) (inbox : list FetchOutcome)
    (t1 : list Event) (u1 : string) (mid : list Event) (u2 : string)
    (t2 : list Event) :
  events (fetcher s inbox) = t1 ++ Fetch u1 :: mid ++ Fetch u2 :: t2 ->
  In (Sleep 200) mid.
Proof. apply (spaced_sound _ false), fetcher_spaced. Qed.

(** A failed page ends a collector's run at once: no delay follows it, and
    no request either. *)
Example failed_page_trace :
  events (fetchContractResults [sample_error; blank])
  = [Stdout (Fetching ContractResults);
     Stdout (Progress ContractResults 1 0);
     Fetch results_url;
     Stderr (HttpError 500);
     Stdout (Found ContractResults 0)].
Proof. reflexivity. Qed.

Lemma delay_between_requests_witness :
  In (Sleep 200) [Sleep 200; Stdout (Progress ContractResults 2 1)].
Proof.
  refine (delay_between_requests ContractResults
            [sample_page "results" [sample_record "0xa1"] (JStr sample_link);
             sample_error]
            [Stdout (Fetching ContractResults);
             Stdout (Progress ContractResults 1 0)]
            results_url
            [Sleep 200; Stdout (Progress ContractResults 2 1)]
            (resolve sample_link)
            [Stderr (HttpError 500); Stdout (Found ContractResults 1)] _).
  reflexivity.
Defined.

(** ** The two collectors are one algorithm *)

Lemma rename_key_involutive k : rename_key (rename_key k) = k.
Proof.
  unfold rename_key.
  destruct (String.eqb_spec k "results") as [->|Hr]; [reflexivity|].
  destruct (String.eqb_spec k "transactions") as [->|Ht]; [reflexivity|].
  destruct (String.eqb_spec k "results"); [contradiction|].
  destruct (String.eqb_spec k "transactions"); [contradiction|reflexivity].
Qed.

Lemma rename_key_eqb k k' :
  String.eqb (rename_key k) (rename_key k') = String.eqb k k'.
Proof.
  destruct (String.eqb_spec k k') as [->|Hne].
  - apply String.eqb_refl.
  - apply String.eqb_neq. intros Heq. apply Hne.
    now rewrite <- (rename_key_involutive k), Heq, rename_key_involutive.
Qed.

Lemma lookup_renamed k fields :
  lookup_field (rename_key k) (map (fun kv => (rename_key kv.1, kv.2)) fields)
  = lookup_field k fields.
Proof.
  induction fields as [|[k' v] fields IH]; cbn [map lookup_field fst snd];
    [reflexivity|].
  now rewrite rename_key_eqb, IH.
Qed.

Lemma get_renamed data k :
  agree (get (Some (rename_data data)) (rename_key k)) (get (Some data) k).
Proof.
  destruct data; cbn [rename_data get agree]; try reflexivity;
    try (rewrite <- (rename_key_eqb k "length");
         change (rename_key "length") with "length";
         now destruct (String.eqb (rename_key k) "length")).
  apply lookup_renamed.
Qed.

Lemma try_renamed pageCount acc o :
  pass_acc (try_transactions pageCount acc (rename_outcome o))
  = pass_acc (try_results pageCount acc o)
  /\ agree (pass_end (try_transactions pageCount acc (rename_outcome o)))
           (pass_end (try_results pageCount acc o)).
Proof.
  destruct o as [[code [data|e]]|e]; unfold try_transactions, try_results;
    cbn [rename_outcome json status ok]; try (split; reflexivity).
  - destruct (negb _); [split; reflexivity|].
    pose proof (get_renamed data "results") as Hpage.
    pose proof (get_renamed data "links") as Hlinks.
    change (rename_key "results") with "transactions" in Hpage.
    change (rename_key "links") with "links" in Hlinks.
    destruct (get (Some (rename_data data)) "transactions") as [page'|],
      (get (Some data) "results") as [page|]; cbn [agree] in Hpage;
      try contradiction; [subst page'|split; reflexivity].
    destruct (get (Some (rename_data data)) "links") as [links'|],
      (get (Some data) "links") as [links|]; cbn [agree] in Hlinks;
      try contradiction; [subst links'|];
      unfold bind; repeat case_match; simplify_eq/=; auto.
  - destruct (negb _); split; reflexivity.
Qed.

(** The outbound loop on the renamed outcomes follows the inbound loop on
    the original ones, step by step; the URL it holds matters only through
    the test of [while (url)]. *)
Lemma loops_renamed inbox :
  forall url url' pageCount acc,
    url_truthy url' = url_truthy url ->
    returned (transactions_loop (map rename_outcome inbox) url' pageCount acc)
    = returned (results_loop inbox url pageCount acc)
    /\ remaining (transactions_loop (map rename_outcome inbox) url' pageCount acc)
       = map rename_outcome <$> remaining (results_loop inbox url pageCount acc).
Proof.
  induction inbox as [|o inbox IH]; intros url url' pageCount acc Hurl;
    cbn [map transactions_loop results_loop]; rewrite Hurl;
    destruct (url_truthy url); try (split; reflexivity).
  rewrite !returned_after, !remaining_after.
  destruct (try_renamed (pageCount + 1) acc o) as [Hacc Hend].
  rewrite Hacc.
  destruct (pass_end (try_transactions _ _ _)) as [[|next']|e'],
    (pass_end (try_results _ _ _)) as [[|next]|e]; cbn [agree] in Hend;
    try contradiction; try discriminate; try (split; reflexivity).
  injection Hend as ->. now apply IH.
Qed.

(** C10. The two collectors are the same pagination algorithm, instantiated
    at an initial URL and at the name of the results field; run on a
    sequence of outcomes and on the same sequence with the results field
    renamed, they return equal record sequences (and either both return or
    both keep waiting). *)
Theorem collectors_equivalent (inbox : list FetchOutcome) :
  (fetchContractResults inbox
   = collect ContractResults "results" results_url inbox
   /\ fetchTransactionsFromContract inbox
      = collect Transactions "transactions" transactions_url inbox)
  /\ returned (fetchTransactionsFromContract (map rename_outcome inbox))
     = returned (fetchContractResults inbox)
  /\ remaining (fetchTransactionsFromContract (map rename_outcome inbox))
     = map rename_outcome <$> remaining (fetchContractResults inbox).
Proof.
  split; [split; [apply fetchContractResults_collect
                 |apply fetchTransactionsFromContract_collect]|].
  unfold fetchTransactionsFromContract, fetchContractResults.
  rewrite !returned_after, !remaining_after.
  destruct (loops_renamed inbox (Some results_url) (Some transactions_url) 0 []
              eq_refl) as [Hret Hrem].
  destruct (transactions_loop _ _ _ _) as [a' rest' tr'|tr'],
    (results_loop _ _ _ _) as [a rest tr|tr];
    cbn [returned remaining and_then after fmap option_fmap option_map] in *;
    try discriminate; [|split; reflexivity].
  injection Hret as ->. injection Hrem as ->. split; reflexivity.
Qed.

(** ** The snapshot *)

(** C6. Whatever record sequences the two collectors returned, the
    snapshot assembled from them holds them as [contractResults] and
    [transactions], and its metadata holds their two lengths, the
    contract's native id and EVM address, the start and end of the window in
    epoch seconds, and the collection timestamp. *)
Theorem snapshot_metadata_consistent (contractResults transactions : list JSON)
    (fetchedAt : string) :
  let snapshot := Some (allData contractResults transactions fetchedAt) in
  exists metadata,
    get snapshot "metadata" = Normal (Some metadata)
    /\ get snapshot "contractResults" = Normal (Some (JArr contractResults))
    /\ get snapshot "transactions" = Normal (Some (JArr transactions))
    /\ get (Some metadata) "totalContractResults"
       = Normal (Some (JNum (Z.of_nat (length contractResults))))
    /\ get (Some metadata) "totalTransactions"
       = Normal (Some (JNum (Z.of_nat (length transactions))))
    /\ get (Some metadata) "contractId" = Normal (Some (JStr "0.0.9392720"))
    /\ get (Some metadata) "contractEvmAddress"
       = Normal (Some (JStr "0x00000000000000000000000000000000008f5690"))
    /\ get (Some metadata) "startTimestamp" = Normal (Some (JNum 1759276800))
    /\ get (Some metadata) "endTimestamp" = Normal (Some (JNum 1764547200))
    /\ get (Some metadata) "fetchedAt" = Normal (Some (JStr fetchedAt)).
Proof.
  cbv zeta. unfold allData. eexists. split; [reflexivity|].
  repeat split; reflexivity.
Qed.

Lemma paginate_first_request stream field inbox url pageCount acc :
  url_truthy (Some url) = true ->
  head (requests (events (paginate stream field inbox (Some url) pageCount acc)))
  = Some url.
Proof.
  intros Hurl. destruct inbox as [|o inbox]; cbn [paginate]; rewrite Hurl;
    [reflexivity|].
  now rewrite events_after.
Qed.

Lemma fetcher_first_request s inbox :
  head (requests (events (fetcher s inbox))) = Some (initial_url s).
Proof.
  rewrite fetcher_collect. unfold collect.
  pose proof (paginate_first_request s (results_field s) inbox (initial_url s)
                0 [] (initial_url_truthy s)) as H.
  destruct (paginate _ _ _ _ _ _) as [a rest tr|tr];
    cbn [and_then after events] in *; [|exact H].
  do 2 rewrite requests_app.
  change (requests [Stdout (Fetching s)]) with (@nil string). cbn [app].
  destruct (requests tr); [discriminate H|exact H].
Qed.

(** C7. The configured window is [1759276800, 1764547200).  The first URL
    that each collector requests, whatever the responses, is its query URL
    as written below: the bounds appear in it digit for digit, as
    [timestamp=gte:1759276800] and [timestamp=lt:1764547200], each followed
    by the next parameter, with [order=asc]; and the snapshot metadata
    records the same two numbers. *)
Theorem window_bounds_unmodified :
  DATE_START = 1759276800 /\ DATE_END = 1764547200
  /\ (forall inbox,
         head (requests (events (fetchContractResults inbox)))
         = Some "https://mainnet-public.mirrornode.hedera.com/api/v1/contracts/0.0.9392720/results?timestamp=gte:1759276800&timestamp=lt:1764547200&limit=100&order=asc")
  /\ (forall inbox,
         head (requests (events (fetchTransactionsFromContract inbox)))
         = Some "https://mainnet-public.mirrornode.hedera.com/api/v1/transactions?account.id=0.0.9392720&timestamp=gte:1759276800&timestamp=lt:1764547200&limit=100&order=asc")
  /\ (forall s,
         contains "timestamp=gte:1759276800&" (initial_url s) = true
         /\ contains "&timestamp=lt:1764547200&" (initial_url s) = true
         /\ contains "&order=asc" (initial_url s) = true)
  /\ (forall contractResults transactions fetchedAt,
         exists metadata,
           get (Some (allData contractResults transactions fetchedAt)) "metadata"
           = Normal (Some metadata)
           /\ get (Some metadata) "startTimestamp"
              = Normal (Some (JNum 1759276800))
           /\ get (Some metadata) "endTimestamp"
              = Normal (Some (JNum 1764547200))).
Proof.
  split; [reflexivity|]. split; [reflexivity|].
  split; [exact (fetcher_first_request ContractResults)|].
  split; [exact (fetcher_first_request Transactions)|].
  split.
  - intros []; repeat split; vm_compute; reflexivity.
  - intros. eexists. repeat split; reflexivity.
Qed.

(** ** Aborted runs *)

Lemma written_app tr1 tr2 : written (tr1 ++ tr2) = written tr1 ++ written tr2.
Proof. apply omap_app. Qed.

Lemma paginate_no_write stream field inbox :
  forall url pageCount acc,
    written (events (paginate stream field inbox url pageCount acc)) = [].
Proof.
  induction inbox as [|o inbox IH]; intros url pageCount acc; cbn [paginate];
    destruct (url_truthy url); try reflexivity.
  rewrite events_after, !written_app.
  change (written [_; Fetch _]) with (@nil JSON). cbn [app].
  assert (Hpass : written (pass_events (try_page field (pageCount + 1) acc o)) = []).
  { unfold try_page, bind. repeat case_match; reflexivity. }
  rewrite Hpass. cbn [app].
  destruct (pass_end _) as [[|next]|e]; try reflexivity. apply IH.
Qed.

Lemma fetcher_no_write s inbox : written (events (fetcher s inbox)) = [].
Proof.
  rewrite fetcher_collect. unfold collect.
  pose proof (paginate_no_write s (results_field s) inbox
                (Some (initial_url s)) 0 []) as H.
  destruct (paginate _ _ _ _ _ _) as [a rest tr|tr];
    cbn [and_then after events] in *.
  - do 2 rewrite written_app. now rewrite H.
  - rewrite written_app. now rewrite H.
Qed.

Lemma run_returned {A : Type} (r : Run A) a rest :
  returned r = Some a -> remaining r = Some rest ->
  r = Returned a rest (events r).
Proof. destruct r; cbn; congruence. Qed.

(** Each collector, on full pages followed by an outcome that stops the
    loop, returns the pages' records and those of the stopping page. *)
Lemma fetcher_stops s os ps o tail aborted rest :
  Forall2 (full_page (results_field s)) os ps ->
  stops (results_field s) o tail aborted ->
  fetcher s (os ++ o :: rest)
  = Returned (concat ps.*1 ++ tail) rest (events (fetcher s (os ++ o :: rest))).
Proof.
  intros Hfull Hstops. rewrite fetcher_collect.
  assert (Hstep : forall u pageCount acc,
             url_truthy (Some u) = true ->
             exists tr,
               paginate s (results_field s) (o :: rest) (Some u) pageCount acc
               = Returned (acc ++ tail) rest tr
               /\ requests tr = [u]).
  { intros u pageCount acc Hu.
    destruct Hstops as [o Hfailed|o Hempty|o items Hfinal]; rewrite ?app_nil_r.
    - now apply paginate_failed.
    - now apply paginate_empty.
    - now apply paginate_final. }
  destruct (collect_full_pages s (results_field s) os ps o rest (initial_url s)
              tail _ (initial_url_truthy s) Hfull Hstep eq_refl)
    as (Hret & Hrem & _).
  now apply run_returned.
Qed.

Lemma delivers_not_failed o data : delivers o data -> ~ failed o.
Proof.
  intros (response & -> & Hok & Hjson)
    [(e & He)|[(r & Hr & Hnok)|(r & e & Hr & _ & Hthrow)]];
    [discriminate He|injection Hr as <-; congruence
    |injection Hr as <-; congruence].
Qed.

Lemma full_pages_not_failed field os ps :
  Forall2 (full_page field) os ps -> Forall (fun o => ~ failed o) os.
Proof.
  induction 1 as [|o p os ps (data & (Hdel & _) & _) _ IH]; constructor;
    eauto using delivers_not_failed.
Qed.

(** Where a loop stopped on a failed request, an empty page in its place
    stops it with the same records. *)
Lemma stops_without_failure field o tail aborted :
  stops field o tail aborted ->
  exists o', stops field o' tail false /\ ~ failed o'.
Proof.
  intros [o0 Hfailed|o0 Hempty|o0 items Hfinal].
  - exists blank. split.
    + apply stops_empty. exists (JObj []), undefined.
      split; [eexists; split; [reflexivity|split; reflexivity]|].
      split; [reflexivity|now left].
    + apply (delivers_not_failed _ (JObj [])).
      eexists; split; [reflexivity|split; reflexivity].
  - exists o0. split; [now apply stops_empty|].
    destruct Hempty as (data & results & Hdel & _). eauto using delivers_not_failed.
  - exists o0. split; [now apply stops_final|].
    destruct Hfinal as (data & (Hdel & _) & _). eauto using delivers_not_failed.
Qed.

(** What [main] writes when both loops stop, the snapshot can be
    serialized and the file system accepts the write, whether the loops were
    aborted or not. *)
Lemma main_writes_snapshot (env : Env)
    (os1 os2 : list FetchOutcome) (ps1 ps2 : list (list JSON * string))
    (e1 e2 : FetchOutcome) (tail1 tail2 : list JSON) (aborted1 aborted2 : bool)
    (rest : list FetchOutcome) (size : Z) :
  inbox env = os1 ++ e1 :: os2 ++ e2 :: rest ->
  Forall2 (full_page "results") os1 ps1 ->
  stops "results" e1 tail1 aborted1 ->
  Forall2 (full_page "transactions") os2 ps2 ->
  stops "transactions" e2 tail2 aborted2 ->
  stringify env
    (allData (concat ps1.*1 ++ tail1) (concat ps2.*1 ++ tail2) (clock env))
  = Normal tt ->
  writeFileSync env = Normal tt ->
  statSync env = Normal size ->
  (main env).1 = Completed
  /\ written (main env).2
     = [allData (concat ps1.*1 ++ tail1) (concat ps2.*1 ++ tail2) (clock env)].
Proof.
  intros Hinbox Hfull1 Hstops1 Hfull2 Hstops2 Htext Hwrite Hstat.
  pose proof (fetcher_no_write ContractResults (inbox env)) as Hw1.
  pose proof (fetcher_no_write Transactions (os2 ++ e2 :: rest)) as Hw2.
  unfold main. rewrite Hinbox in *.
  rewrite (fetcher_stops ContractResults os1 ps1 e1 tail1 aborted1 _ Hfull1 Hstops1)
    in *.
  rewrite (fetcher_stops Transactions os2 ps2 e2 tail2 aborted2 _ Hfull2 Hstops2)
    in *.
  rewrite Htext, Hwrite, Hstat.
  cbn [fst snd events] in *.
  split; [reflexivity|].
  do 4 rewrite written_app. rewrite Hw1, Hw2. reflexivity.
Qed.

(** X11. Whenever [main] writes a file, it holds the snapshot assembled
    from what the two collectors returned, the second one run on the
    outcomes the first one left unread. *)
Lemma main_writes_assembled (env : Env) (snapshot : JSON) :
  snapshot ∈ written (main env).2 ->
  exists contractResults transactions rest,
    returned (fetchContractResults (inbox env)) = Some contractResults
    /\ remaining (fetchContractResults (inbox env)) = Some rest
    /\ returned (fetchTransactionsFromContract rest) = Some transactions
    /\ snapshot = allData contractResults transactions (clock env).
Proof.
  unfold main.
  pose proof (fetcher_no_write ContractResults (inbox env)) as Hw1.
  cbn [fetcher] in Hw1.
  destruct (fetchContractResults (inbox env)) as [cr rest tr1|tr1];
    cbn [events snd] in *.
  2:{ rewrite written_app, Hw1. cbn. now rewrite elem_of_nil. }
  pose proof (fetcher_no_write Transactions rest) as Hw2.
  cbn [fetcher] in Hw2.
  destruct (fetchTransactionsFromContract rest) as [tx rest' tr2|tr2] eqn:Htx;
    cbn [events snd] in *.
  2:{ do 2 rewrite written_app. rewrite Hw1, Hw2. cbn. now rewrite elem_of_nil. }
  destruct (stringify env _) as [[]|e]; cbn [snd].
  2:{ do 3 rewrite written_app. rewrite Hw1, Hw2. cbn. now rewrite elem_of_nil. }
  destruct (writeFileSync env) as [[]|e]; cbn [snd].
  2:{ do 4 rewrite written_app. rewrite Hw1, Hw2.
      destruct (truncates env); cbn; now rewrite elem_of_nil. }
  intros Hin. exists cr, tx, rest.
  split; [reflexivity|]. split; [reflexivity|]. split; [now rewrite Htx|].
  destruct (statSync env) as [size|e]; cbn [snd] in Hin;
    do 4 rewrite written_app in Hin; rewrite Hw1, Hw2 in Hin; cbn in Hin;
    apply list_elem_of_singleton in Hin; exact Hin.
Qed.

(** C9. When one or both loops abort on a failed request, and the
    serialization of the snapshot, its write and the stat that follows all
    succeed, [main] completes; it writes one snapshot, whose
    [contractResults] and [transactions] arrays are the records accumulated
    by each loop before it stopped, with their two lengths as the totals of
    the metadata.  The metadata has only its eight usual fields, and nothing
    in the snapshot tells the run from a complete one: some run in which no
    request fails writes the very same snapshot. *)
Theorem aborted_run_writes_partial_snapshot (env : Env)
    (os1 os2 : list FetchOutcome) (ps1 ps2 : list (list JSON * string))
    (e1 e2 : FetchOutcome) (tail1 tail2 : list JSON) (aborted1 aborted2 : bool)
    (rest : list FetchOutcome) (size : Z) :
  inbox env = os1 ++ e1 :: os2 ++ e2 :: rest ->
  Forall2 (full_page "results") os1 ps1 ->
  stops "results" e1 tail1 aborted1 ->
  Forall2 (full_page "transactions") os2 ps2 ->
  stops "transactions" e2 tail2 aborted2 ->
  aborted1 || aborted2 = true ->
  stringify env
    (allData (concat ps1.*1 ++ tail1) (concat ps2.*1 ++ tail2) (clock env))
  = Normal tt ->
  writeFileSync env = Normal tt ->
  statSync env = Normal size ->
  (main env).1 = Completed
  /\ (exists snapshot metadata,
        written (main env).2 = [snapshot]
        /\ get (Some snapshot) "contractResults"
           = Normal (Some (JArr (concat ps1.*1 ++ tail1)))
        /\ get (Some snapshot) "transactions"
           = Normal (Some (JArr (concat ps2.*1 ++ tail2)))
        /\ get (Some snapshot) "metadata" = Normal (Some metadata)
        /\ get (Some metadata) "totalContractResults"
           = Normal (Some (JNum (Z.of_nat (length (concat ps1.*1 ++ tail1)))))
        /\ get (Some metadata) "totalTransactions"
           = Normal (Some (JNum (Z.of_nat (length (concat ps2.*1 ++ tail2)))))
        /\ metadata_keys snapshot
           = ["contractId"; "contractEvmAddress"; "period";
              "startTimestamp"; "endTimestamp"; "fetchedAt";
              "totalContractResults"; "totalTransactions"])
  /\ written (main env).2
     = [allData (concat ps1.*1 ++ tail1) (concat ps2.*1 ++ tail2) (clock env)]
  /\ exists env',
       Forall (fun o => ~ failed o) (inbox env')
       /\ (main env').1 = Completed
       /\ written (main env').2 = written (main env).2.
Proof.
  intros Hinbox Hfull1 Hstops1 Hfull2 Hstops2 _ Htext Hwrite Hstat.
  destruct (main_writes_snapshot env os1 os2 ps1 ps2 e1 e2 tail1 tail2
              aborted1 aborted2 rest size) as [Hdone Hwritten]; try assumption.
  split; [exact Hdone|]. split.
  { eexists _, _. split; [exact Hwritten|].
    unfold allData. repeat split; reflexivity. }
  split; [exact Hwritten|].
  destruct (stops_without_failure _ _ _ _ Hstops1) as (e1' & Hstops1' & Hok1).
  destruct (stops_without_failure _ _ _ _ Hstops2) as (e2' & Hstops2' & Hok2).
  exists {| inbox := os1 ++ e1' :: os2 ++ e2' :: [];
            clock := clock env;
            stringify := stringify env;
            writeFileSync := Normal tt;
            truncates := truncates env;
            statSync := Normal size |}.
  destruct (main_writes_snapshot
              {| inbox := os1 ++ e1' :: os2 ++ e2' :: [];
                 clock := clock env;
                 stringify := stringify env;
                 writeFileSync := Normal tt;
                 truncates := truncates env;
                 statSync := Normal size |}
              os1 os2 ps1 ps2 e1' e2' tail1 tail2 false false [] size)
    as [Hdone' Hwritten']; try assumption; try reflexivity.
  split; [|split; [exact Hdone'|now rewrite Hwritten', Hwritten]].
  cbn [inbox]. apply Forall_app. split; [eauto using full_pages_not_failed|].
  constructor; [exact Hok1|].
  apply Forall_app. split; [eauto using full_pages_not_failed|].
  constructor; [exact Hok2|constructor].
Qed.

Lemma aborted_run_writes_partial_snapshot_witness :
  written
    (main (sample_env
             [sample_page "results" [sample_record "0xa1"] (JStr sample_link);
              sample_error;
              sample_page "transactions" [sample_record "0xb1"] JNull]
             (Normal tt) (Normal 1024))).2
  = [allData [sample_record "0xa1"] [sample_record "0xb1"]
       "2025-12-02T09:30:00.000Z"].
Proof.
  refine (proj1 (proj2 (proj2 (aborted_run_writes_partial_snapshot
            (sample_env
               [sample_page "results" [sample_record "0xa1"] (JStr sample_link);
                sample_error;
                sample_page "transactions" [sample_record "0xb1"] JNull]
               (Normal tt) (Normal 1024))
            [sample_page "results" [sample_record "0xa1"] (JStr sample_link)] []
            [([sample_record "0xa1"], sample_link)] []
            sample_error (sample_page "transactions" [sample_record "0xb1"] JNull)
            [] [sample_record "0xb1"] true false [] 1024 _ _ _ _ _ _ _ _ _)))).
  - reflexivity.
  - repeat constructor.
    eexists; split; [split; [eexists; split; [reflexivity|split; reflexivity]
                            |split; [reflexivity|discriminate]]
                    |split; [reflexivity|discriminate]].
  - apply stops_failed. right; left. eexists; split; reflexivity.
  - constructor.
  - apply stops_final.
    eexists; split; [split; [eexists; split; [reflexivity|split; reflexivity]
                            |split; [reflexivity|discriminate]]
                    |eexists; split; reflexivity].
  - reflexivity.
  - reflexivity.
  - reflexivity.
  - reflexivity.
Defined.

(** ** The Analyzer *)

Section AnalyzerFacts.

Variable caller : JSON -> option string.
Variable counterparty : JSON -> option string.
Variable canonical : string -> string.

Local Abbreviation is_contract := (Analyzer.is_contract canonical).
Local Abbreviation walletSet := (Analyzer.walletSet caller counterparty canonical).
Local Abbreviation identifiers := (Analyzer.identifiers caller counterparty canonical).
Local Abbreviation analyze := (Analyzer.analyze caller counterparty canonical).

Lemma elem_of_visits extract records :
  forall (seen : gset string) (id : string),
    id ∈ foldl (Analyzer.visit canonical extract) seen records
    <-> id ∈ seen
        \/ (id ∈ omap (fun r => canonical <$> extract r) records
            /\ is_contract id = false).
Proof.
  induction records as [|r records IH]; intros seen id; cbn [foldl omap list_omap].
  - rewrite elem_of_nil. tauto.
  - rewrite IH. unfold Analyzer.visit.
    destruct (extract r) as [raw|]; cbn [fmap option_fmap option_map]; [|tauto].
    rewrite elem_of_cons.
    destruct (is_contract (canonical raw)) eqn:Hc.
    + split; [tauto|]. intros [?|[[->|?] ?]]; [tauto|congruence|tauto].
    + rewrite elem_of_union, elem_of_singleton.
      split; [intros [[->|?]|?]; tauto|tauto].
Qed.

Lemma elem_of_walletSet snapshot id :
  id ∈ walletSet snapshot
  <-> id ∈ identifiers snapshot /\ is_contract id = false.
Proof.
  unfold Analyzer.walletSet, Analyzer.identifiers.
  rewrite !elem_of_visits, elem_of_app, elem_of_empty. tauto.
Qed.

(** C4. When exactly K distinct identifiers other than the contract's
    appear in the N inbound and M outbound records of a snapshot, however
    often each is repeated, the unique-wallet count is K. *)
Theorem unique_count_exact (snapshot : Analyzer.Snapshot) (ks : list string)
    (K : nat) :
  NoDup ks ->
  length ks = K ->
  Forall (fun id => id ∈ identifiers snapshot /\ is_contract id = false) ks ->
  Forall (fun id => is_contract id = false -> id ∈ ks) (identifiers snapshot) ->
  Analyzer.uniqueWallets (analyze snapshot) = K.
Proof.
  intros Hnodup <- Happear Honly. cbn [Analyzer.analyze Analyzer.uniqueWallets].
  rewrite <- (size_list_to_set (C := gset string) ks Hnodup).
  f_equal. apply set_eq. intros id.
  rewrite elem_of_walletSet, elem_of_list_to_set.
  rewrite Forall_forall in Happear, Honly. split.
  - intros [Hin Hc]. now apply Honly.
  - apply Happear.
Qed.

(** C5. No identifier that is the contract's, in its native form
    [0.0.9392720] or in its EVM address form, is a member of the
    WalletSet: the set holds canonical forms, and it holds the canonical
    form of neither.  When normalizing a canonical form leaves it unchanged,
    the two forms as written are not members either. *)
Theorem contract_excluded (snapshot : Analyzer.Snapshot) :
  (canonical "0.0.9392720" ∉ walletSet snapshot)
  /\ (canonical "0x00000000000000000000000000000000008f5690" ∉ walletSet snapshot)
  /\ (forall id, id ∈ walletSet snapshot -> is_contract id = false)
  /\ ((forall id, canonical (canonical id) = canonical id) ->
      ("0.0.9392720" ∉ walletSet snapshot)
      /\ ("0x00000000000000000000000000000000008f5690" ∉ walletSet snapshot)).
Proof.
  assert (H : forall id, id ∈ walletSet snapshot -> is_contract id = false).
  { intros id Hin. now apply elem_of_walletSet in Hin. }
  assert (Hforms : forall form,
             form ∈ Analyzer.contract_forms ->
             canonical form ∉ walletSet snapshot).
  { intros form Hform Hin. apply H in Hin.
    apply bool_decide_eq_false in Hin. apply Hin.
    now apply list_elem_of_fmap_2. }
  assert (Hraw : (forall id, canonical (canonical id) = canonical id) ->
                 forall form,
                   form ∈ Analyzer.contract_forms -> form ∉ walletSet snapshot).
  { intros Hidem form Hform Hin.
    assert (Hfix : canonical form = form).
    { apply elem_of_walletSet in Hin as [Hin _].
      unfold Analyzer.identifiers in Hin.
      apply elem_of_app in Hin as [Hin|Hin];
        apply list_elem_of_omap in Hin as (r & _ & Hr);
        [destruct (caller r) as [raw|]|destruct (counterparty r) as [raw|]];
        cbn in Hr; try discriminate; injection Hr as <-; apply Hidem. }
    apply (Hforms form Hform). now rewrite Hfix. }
  unfold Analyzer.contract_forms, CONTRACT_ID, CONTRACT_EVM_ADDRESS in *.
  split; [apply Hforms; set_solver|].
  split; [apply Hforms; set_solver|].
  split; [exact H|].
  intros Hidem. split; apply (Hraw Hidem); set_solver.
Qed.

End AnalyzerFacts.

Lemma unique_count_exact_witness :
  Analyzer.uniqueWallets
    (Analyzer.analyze (text_field "from") (text_field "to") (fun id => id)
       sample_snapshot)
  = 2%nat.
Proof.
  refine (unique_count_exact (text_field "from") (text_field "to") (fun id => id)
            sample_snapshot ["0.0.1001"; "0.0.1002"] 2 _ _ _ _).
  - compute_done.
  - reflexivity.
  - compute_done.
  - compute_done.
Defined.

Lemma contract_excluded_witness :
  "0.0.9392720"
    ∉ Analyzer.walletSet (text_field "from") (text_field "to") (fun id => id)
        sample_snapshot.
Proof.
  exact (proj1 (proj2 (proj2 (proj2
           (contract_excluded (text_field "from") (text_field "to")
              (fun id => id) sample_snapshot)))
           (fun id => eq_refl))).
Defined.

(** * Further properties of the fetcher *)

(** ** What a pass does, whatever the outcome *)

Lemma delays_app tr1 tr2 : delays (tr1 ++ tr2) = delays tr1 ++ delays tr2.
Proof. apply omap_app. Qed.

Lemma resolve_absolute link : String.prefix "http" (resolve link) = true.
Proof.
  unfold resolve. destruct (String.prefix "http" link) eqn:Hp; [exact Hp|].
  reflexivity.
Qed.

Lemma spread_falsy v items :
  truthy v = false -> spread v = Normal items -> items = [].
Proof.
  destruct v as [[| | |str| |]|]; cbn [spread truthy]; try discriminate.
  destruct str; [|discriminate]. intros _ [= <-]. reflexivity.
Qed.

Lemma spread_zero_length v len items :
  get v "length" = Normal len -> strict_eq_zero len = true ->
  spread v = Normal items -> items = [].
Proof.
  destruct v as [[| | |str|xs|]|]; cbn [spread get String.eqb Ascii.eqb Bool.eqb];
    try discriminate.
  - intros [= <-]. destruct str; [|discriminate]. intros _ [= <-]. reflexivity.
  - intros [= <-]. destruct xs; [|discriminate]. intros _ [= <-]. reflexivity.
Qed.

Lemma try_page_acc field pageCount acc o :
  pass_acc (try_page field pageCount acc o) = acc ++ contribution field o.
Proof.
  unfold try_page, contribution.
  destruct o as [response|e]; [|now rewrite app_nil_r].
  destruct (ok response); cbn [negb]; [|now rewrite app_nil_r].
  destruct (json response) as [data|e]; cbn [bind]; [|now rewrite app_nil_r].
  destruct (get (Some data) field) as [page|e]; cbn [bind];
    [|now rewrite app_nil_r].
  destruct (truthy page) eqn:Htruthy; cbn [negb].
  - destruct (get page "length") as [len|e] eqn:Hlen; cbn [bind].
    + destruct (strict_eq_zero len) eqn:Hzero.
      * destruct (spread page) as [items|e] eqn:Hspread;
          [|now rewrite app_nil_r].
        rewrite (spread_zero_length _ _ _ Hlen Hzero Hspread).
        now rewrite app_nil_r.
      * destruct (spread page) as [items|e]; [|now rewrite app_nil_r].
        repeat case_match; reflexivity.
    + destruct (spread page) as [items|e'] eqn:Hspread;
        [|now rewrite app_nil_r].
      destruct page as [[| | | | |]|]; discriminate.
  - destruct (spread page) as [items|e] eqn:Hspread; [|now rewrite app_nil_r].
    rewrite (spread_falsy _ _ Htruthy Hspread). now rewrite app_nil_r.
Qed.

(** How a pass ends decides its effects: a delay of 200 ms exactly when the
    loop goes on to test [url] again, and never a request or a file. *)
Lemma try_page_effects field pageCount acc o :
  requests (pass_events (try_page field pageCount acc o)) = []
  /\ written (pass_events (try_page field pageCount acc o)) = []
  /\ delays (pass_events (try_page field pageCount acc o))
     = match pass_end (try_page field pageCount acc o) with
       | Normal (Next _) => [200]
       | _ => []
       end.
Proof.
  unfold try_page, bind. repeat case_match; simplify_eq/=; done.
Qed.


(** ** What a collector does, whatever the outcomes *)

Lemma paginate_falsy stream field inbox url pageCount acc :
  url_truthy url = false ->
  paginate stream field inbox url pageCount acc = Returned acc inbox [].
Proof. intros Hurl. destruct inbox; cbn [paginate]; now rewrite Hurl. Qed.



Lemma paginate_delays stream field inbox :
  forall url pageCount acc,
    Forall (fun ms => ms = 200)
      (delays (events (paginate stream field inbox url pageCount acc)))
    /\ (length (delays (events (paginate stream field inbox url pageCount acc)))
        <= length (requests (events (paginate stream field inbox url pageCount acc))))%nat.
Proof.
  induction inbox as [|o inbox IH]; intros url pageCount acc;
    cbn [paginate]; destruct (url_truthy url) eqn:Hurl;
    try (cbn; split; [constructor|lia]).
  rewrite events_after, !requests_app, !delays_app.
  destruct (try_page_effects field (pageCount + 1) acc o) as (-> & _ & ->).
  change (delays [_; Fetch _]) with (@nil Z).
  change (requests [_; Fetch (url_text url)]) with [url_text url].
  cbn [app].
  destruct (pass_end _) as [[|next]|e] eqn:Hend;
    try (cbn; split; [constructor|lia]).
  destruct (IH next (pageCount + 1) (pass_acc (try_page field (pageCount + 1) acc o)))
    as [Hall Hle].
  cbn [app length]. split; [constructor; [reflexivity|exact Hall]|lia].
Qed.

Lemma requests_started m u tr :
  requests (Stdout m :: Fetch u :: tr) = u :: requests tr.
Proof. reflexivity. Qed.

(** A run that returns has read a prefix of the outcomes, one request for
    each; its result is the accumulator followed by what each of them
    contributed; and it does not depend on what comes after the prefix. *)
Lemma paginate_consumes stream field inbox :
  forall url pageCount acc all rest tr,
    paginate stream field inbox url pageCount acc = Returned all rest tr ->
    exists consumed,
      inbox = consumed ++ rest
      /\ all = acc ++ concat (contribution field <$> consumed)
      /\ length (requests tr) = length consumed
      /\ forall rest',
          paginate stream field (consumed ++ rest') url pageCount acc
          = Returned all rest' tr.
Proof.
  induction inbox as [|o inbox IH]; intros url pageCount acc all rest tr;
    cbn [paginate]; destruct (url_truthy url) eqn:Hurl; try discriminate.
  - intros Heq; injection Heq as <- <- <-. exists []. cbn [app fmap list_fmap concat]. rewrite app_nil_r.
    split; [reflexivity|]. split; [reflexivity|]. split; [reflexivity|].
    intros rest'. now apply paginate_falsy.
  - pose proof (try_page_acc field (pageCount + 1) acc o) as Hacc.
    destruct (try_page_effects field (pageCount + 1) acc o) as (Hreq & _ & _).
    destruct (pass_end (try_page field (pageCount + 1) acc o))
      as [[|next]|e] eqn:Hend.
    + cbn [after]. intros Heq; injection Heq as <- <- <-. exists [o].
      split; [reflexivity|].
      split; [cbn [fmap list_fmap concat]; now rewrite app_nil_r|].
      split; [now rewrite requests_started, requests_app, Hreq|].
      intros rest'. cbn [app paginate]. rewrite Hurl, Hend. reflexivity.
    + destruct (paginate stream field inbox next (pageCount + 1)
                  (pass_acc (try_page field (pageCount + 1) acc o)))
        as [all' rest0 tr'|tr'] eqn:Hrec; cbn [after]; [|discriminate].
      intros Heq; injection Heq as <- <- <-.
      destruct (IH _ _ _ _ _ _ Hrec) as (consumed & -> & -> & Hlen & Hframe).
      exists (o :: consumed).
      split; [reflexivity|].
      split; [cbn [fmap list_fmap concat]; now rewrite Hacc, app_assoc|].
      split.
      * rewrite requests_started, requests_app, Hreq. cbn [app length].
        now rewrite Hlen.
      * intros rest'. cbn [app paginate]. rewrite Hurl, Hend.
        now rewrite (Hframe rest').
    + cbn [after]. intros Heq; injection Heq as <- <- <-. exists [o].
      split; [reflexivity|].
      split; [cbn [fmap list_fmap concat]; now rewrite app_nil_r|].
      split; [now rewrite requests_started, requests_app, Hreq|].
      intros rest'. cbn [app paginate]. rewrite Hurl, Hend. reflexivity.
  - intros Heq; injection Heq as <- <- <-. exists []. cbn [app fmap list_fmap concat]. rewrite app_nil_r.
    split; [reflexivity|]. split; [reflexivity|]. split; [reflexivity|].
    intros rest'. now apply paginate_falsy.
Qed.


(** X2. Every delay a collector inserts is of 200 ms, and it inserts at
    most one delay per request. *)
Theorem delays_fixed_and_bounded (s : Stream) (inbox : list FetchOutcome) :
  Forall (fun ms => ms = 200) (delays (events (fetcher s inbox)))
  /\ (length (delays (events (fetcher s inbox)))
      <= length (requests (events (fetcher s inbox))))%nat.
Proof.
  rewrite fetcher_collect. unfold collect.
  destruct (paginate_delays s (results_field s) inbox
              (Some (initial_url s)) 0 []) as [Hall Hle].
  destruct (paginate _ _ _ _ _ _) as [all rest tr|tr];
    cbn [and_then after events] in *.
  - do 2 rewrite delays_app, requests_app.
    change (delays [Stdout (Fetching s)]) with (@nil Z).
    change (delays [Stdout (Found s (length all))]) with (@nil Z).
    change (requests [Stdout (Fetching s)]) with (@nil string).
    change (requests [Stdout (Found s (length all))]) with (@nil string).
    cbn [app]. now rewrite !app_nil_r.
  - rewrite delays_app, requests_app. now split.
Qed.

Lemma collect_returned stream field url inbox all rest tr :
  collect stream field url inbox = Returned all rest tr ->
  exists tr',
    paginate stream field inbox (Some url) 0 [] = Returned all rest tr'
    /\ tr = [Stdout (Fetching stream)] ++ tr'
              ++ [Stdout (Found stream (length all))].
Proof.
  unfold collect.
  destruct (paginate _ _ _ _ _ _) as [all' rest' tr'|tr'];
    cbn [and_then after]; [|discriminate].
  intros Heq; injection Heq as <- <- <-. eauto.
Qed.

(** X3. What a collector returns is, in order, what the responses it read
    contributed, and nothing else: it read a prefix of the outcomes, made
    one request for each, and returned the concatenation of the results
    arrays of the successful ones. *)
Theorem result_is_what_was_read (s : Stream) (inbox : list FetchOutcome)
    (all : list JSON) (rest : list FetchOutcome) (tr : list Event) :
  fetcher s inbox = Returned all rest tr ->
  exists consumed,
    inbox = consumed ++ rest
    /\ all = concat (contribution (results_field s) <$> consumed)
    /\ length (requests tr) = length consumed.
Proof.
  rewrite fetcher_collect. intros Hrun.
  destruct (collect_returned _ _ _ _ _ _ _ Hrun) as (tr' & Hloop & ->).
  destruct (paginate_consumes _ _ _ _ _ _ _ _ _ Hloop)
    as (consumed & Hinbox & Hall & Hlen & _).
  exists consumed. split; [exact Hinbox|]. split; [exact Hall|].
  do 2 rewrite requests_app.
  change (requests [Stdout (Fetching s)]) with (@nil string).
  change (requests [Stdout (Found s (length all))]) with (@nil string).
  cbn [app]. now rewrite app_nil_r.
Qed.

(** X4. A collector never looks ahead: the outcomes it left unread can be
    replaced by any others without changing what it returns or what it
    does. *)
Theorem no_look_ahead (s : Stream) (inbox : list FetchOutcome)
    (all : list JSON) (rest : list FetchOutcome) (tr : list Event) :
  fetcher s inbox = Returned all rest tr ->
  exists consumed,
    inbox = consumed ++ rest
    /\ forall rest', fetcher s (consumed ++ rest') = Returned all rest' tr.
Proof.
  rewrite fetcher_collect. intros Hrun.
  destruct (collect_returned _ _ _ _ _ _ _ Hrun) as (tr' & Hloop & ->).
  destruct (paginate_consumes _ _ _ _ _ _ _ _ _ Hloop)
    as (consumed & Hinbox & _ & _ & Hframe).
  exists consumed. split; [exact Hinbox|].
  intros rest'. rewrite fetcher_collect. unfold collect.
  now rewrite (Hframe rest').
Qed.

(** X5. The loop has no bound of its own: as long as every response is a
    full page, the collector keeps requesting the next link and does not
    return. *)
Theorem full_pages_never_end (s : Stream) (os : list FetchOutcome)
    (ps : list (list JSON * string)) :
  Forall2 (full_page (results_field s)) os ps ->
  returned (fetcher s os) = None
  /\ requests (events (fetcher s os))
     = initial_url s :: map (fun p => resolve p.2) ps.
Proof.
  intros Hfull. rewrite fetcher_collect. unfold collect.
  destruct (paginate_full_pages s (results_field s) os ps Hfull []
              (initial_url s) 0 [] (initial_url_truthy s)) as (tr & Hrun & Hreq).
  rewrite app_nil_r in Hrun. rewrite Hrun.
  cbn [paginate]. rewrite (cursor_truthy _ ps (initial_url_truthy s)).
  cbn [after and_then returned events]. split; [reflexivity|].
  do 2 rewrite requests_app. rewrite Hreq. cbn [url_text].
  change (requests [Stdout (Fetching s)]) with (@nil string).
  rewrite requests_started. cbn [app requests omap list_omap].
  apply visited_cursor.
Qed.

Lemma result_is_what_was_read_witness :
  exists consumed,
    [sample_page "results" [sample_record "0xa1"] JNull; sample_error]
    = consumed ++ [sample_error]
    /\ [sample_record "0xa1"] = concat (contribution "results" <$> consumed)
    /\ length (requests
                 [Stdout (Fetching ContractResults);
                  Stdout (Progress ContractResults 1 0);
                  Fetch results_url;
                  Stdout NoMorePages; Sleep 200;
                  Stdout (Found ContractResults 1)])
       = length consumed.
Proof.
  refine (result_is_what_was_read ContractResults
            [sample_page "results" [sample_record "0xa1"] JNull; sample_error]
            [sample_record "0xa1"] [sample_error] _ _).
  reflexivity.
Defined.

Lemma no_look_ahead_witness :
  exists consumed,
    [sample_error; blank] = consumed ++ [blank]
    /\ forall rest',
        fetchTransactionsFromContract (consumed ++ rest')
        = Returned [] rest'
            [Stdout (Fetching Transactions);
             Stdout (Progress Transactions 1 0);
             Fetch transactions_url;
             Stderr (HttpError 500);
             Stdout (Found Transactions 0)].
Proof.
  refine (no_look_ahead Transactions [sample_error; blank] [] [blank] _ _).
  reflexivity.
Defined.

Lemma full_pages_never_end_witness :
  returned (fetchContractResults
              [sample_page "results" [sample_record "0xa1"] (JStr sample_link);
               sample_page "results" [sample_record "0xa2"] (JStr sample_link)])
  = None.
Proof.
  refine (proj1 (full_pages_never_end ContractResults
                   [sample_page "results" [sample_record "0xa1"] (JStr sample_link);
                    sample_page "results" [sample_record "0xa2"] (JStr sample_link)]
                   [([sample_record "0xa1"], sample_link);
                    ([sample_record "0xa2"], sample_link)] _)).
  repeat constructor;
    (eexists; split; [split; [eexists; split; [reflexivity|split; reflexivity]
                             |split; [reflexivity|discriminate]]
                     |split; [reflexivity|discriminate]]).
Defined.

(** ** Bodies the loop does not expect *)

Lemma paginate_non_string_link stream field o items data inbox url pageCount acc :
  url_truthy (Some url) = true ->
  page_of field o items data ->
  links_to_non_string data ->
  exists tr,
    paginate stream field (o :: inbox) (Some url) pageCount acc
    = Returned (acc ++ items) inbox tr
    /\ requests tr = [url].
Proof.
  intros Hurl Hpage (next & Hlink & Htruthy & Hnot). cbn [paginate].
  rewrite Hurl, (try_page_records _ _ _ _ _ _ Hpage), Hlink, Htruthy.
  assert (Hthrow : exists e, absolute_url next = Throw e).
  { destruct next as [[| | |link| |]|]; cbn [absolute_url]; eauto.
    exfalso. now apply (Hnot link). }
  destruct Hthrow as (e & ->). cbn [pass pass_events pass_end pass_acc after].
  eexists; split; reflexivity.
Qed.

(** X6. When a page holds records but its next link is truthy and not a
    string (a number, [true], an array, an object), the records of that page
    are kept, the error raised on the link is caught, and the collector
    returns with them. *)
Theorem non_string_link_keeps_page (s : Stream) (os : list FetchOutcome)
    (ps : list (list JSON * string)) (o : FetchOutcome) (items : list JSON)
    (data : JSON) (rest : list FetchOutcome) :
  Forall2 (full_page (results_field s)) os ps ->
  page_of (results_field s) o items data ->
  links_to_non_string data ->
  returned (fetcher s (os ++ o :: rest)) = Some (concat ps.*1 ++ items)
  /\ remaining (fetcher s (os ++ o :: rest)) = Some rest
  /\ requests (events (fetcher s (os ++ o :: rest)))
     = initial_url s :: map (fun p => resolve p.2) ps.
Proof.
  intros Hfull Hpage Hlink. rewrite fetcher_collect.
  eapply collect_full_pages; eauto using initial_url_truthy.
  intros u pageCount acc Hu.
  exact (paginate_non_string_link s (results_field s) o items data rest u
           pageCount acc Hu Hpage Hlink).
Qed.

Lemma non_string_link_keeps_page_witness :
  returned (fetchContractResults
              [sample_page "results" [sample_record "0xa1"] (JNum 2);
               sample_page "results" [sample_record "0xa2"] JNull])
  = Some [sample_record "0xa1"].
Proof.
  refine (proj1 (non_string_link_keeps_page ContractResults [] []
                   (sample_page "results" [sample_record "0xa1"] (JNum 2))
                   [sample_record "0xa1"]
                   (JObj [("results", JArr [sample_record "0xa1"]);
                          ("links", JObj [("next", JNum 2)])])
                   [sample_page "results" [sample_record "0xa2"] JNull] _ _ _)).
  - constructor.
  - split; [eexists; split; [reflexivity|split; reflexivity]
           |split; [reflexivity|discriminate]].
  - exists (Some (JNum 2)). split; [reflexivity|].
    split; [reflexivity|discriminate].
Defined.

Lemma paginate_non_object s o data inbox url pageCount acc :
  url_truthy (Some url) = true ->
  delivers o data ->
  is_object data = false ->
  exists tr,
    paginate s (results_field s) (o :: inbox) (Some url) pageCount acc
    = Returned acc inbox tr
    /\ requests tr = [url].
Proof.
  intros Hurl (response & -> & Hok & Hjson) Hobj. cbn [paginate].
  rewrite Hurl. unfold try_page. rewrite Hok, Hjson. cbn [negb].
  destruct data as [| | |str|xs|fields]; try discriminate Hobj;
    destruct s; cbn; eexists; split; reflexivity.
Qed.

(** X7. A successful response whose body is not a JSON object ([null], an
    array, a string, a number, a boolean) ends the loop: the collector
    returns the records of the pages before it. *)
Theorem non_object_body_stops (s : Stream) (os : list FetchOutcome)
    (ps : list (list JSON * string)) (o : FetchOutcome) (data : JSON)
    (rest : list FetchOutcome) :
  Forall2 (full_page (results_field s)) os ps ->
  delivers o data ->
  is_object data = false ->
  returned (fetcher s (os ++ o :: rest)) = Some (concat ps.*1)
  /\ remaining (fetcher s (os ++ o :: rest)) = Some rest
  /\ requests (events (fetcher s (os ++ o :: rest)))
     = initial_url s :: map (fun p => resolve p.2) ps.
Proof.
  intros Hfull Hdel Hobj. rewrite fetcher_collect.
  rewrite <- (app_nil_r (concat ps.*1)).
  eapply collect_full_pages; eauto using initial_url_truthy.
  intros u pageCount acc Hu. rewrite app_nil_r.
  exact (paginate_non_object s o data rest u pageCount acc Hu Hdel Hobj).
Qed.

Lemma non_object_body_stops_witness :
  returned (fetchTransactionsFromContract
              [sample_page "transactions" [sample_record "0xb1"] (JStr sample_link);
               Normal {| status := 200; json := Normal JNull |};
               sample_page "transactions" [sample_record "0xb3"] JNull])
  = Some [sample_record "0xb1"].
Proof.
  refine (proj1 (non_object_body_stops Transactions
                   [sample_page "transactions" [sample_record "0xb1"]
                      (JStr sample_link)]
                   [([sample_record "0xb1"], sample_link)]
                   (Normal {| status := 200; json := Normal JNull |}) JNull
                   [sample_page "transactions" [sample_record "0xb3"] JNull]
                   _ _ _)).
  - repeat constructor.
    eexists; split; [split; [eexists; split; [reflexivity|split; reflexivity]
                            |split; [reflexivity|discriminate]]
                    |split; [reflexivity|discriminate]].
  - eexists; split; [reflexivity|split; reflexivity].
  - reflexivity.
Defined.

(** ** How [main] ends *)

(** X8. [main] calls [process.exit] only with code 1, only after both
    collectors have returned, and only because one of the three calls of its
    [try] block that can throw did so: the serialization of the snapshot,
    the write of the file, or the stat that follows it.  The error printed
    is that call's, and the exit is the last thing the run does.  A failed
    request never reaches this [catch] block. *)
Theorem main_fatal_only_after_collection (env : Env) (code : Z) :
  (main env).1 = Exited code ->
  code = 1
  /\ exists contractResults rest transactions e,
      returned (fetchContractResults (inbox env)) = Some contractResults
      /\ remaining (fetchContractResults (inbox env)) = Some rest
      /\ returned (fetchTransactionsFromContract rest) = Some transactions
      /\ (stringify env (allData contractResults transactions (clock env))
          = Throw e
          \/ (stringify env (allData contractResults transactions (clock env))
              = Normal tt
              /\ writeFileSync env = Throw e)
          \/ (stringify env (allData contractResults transactions (clock env))
              = Normal tt
              /\ writeFileSync env = Normal tt
              /\ statSync env = Throw e))
      /\ exists tr, (main env).2 = tr ++ [Stderr (Fatal e); Exit 1].
Proof.
  unfold main.
  destruct (fetchContractResults (inbox env)) as [cr rest tr1|tr1];
    [|discriminate].
  destruct (fetchTransactionsFromContract rest) as [tx rest' tr2|tr2] eqn:Htx;
    [|discriminate].
  destruct (stringify env _) as [[]|e] eqn:Htext; cbn [fst snd].
  - destruct (writeFileSync env) as [[]|e]; cbn [fst snd].
    + destruct (statSync env) as [size|e]; cbn [fst snd]; [discriminate|].
      intros Heq; injection Heq as <-. split; [reflexivity|].
      exists cr, rest, tx, e. rewrite Htx. cbn [returned remaining].
      repeat (split; [reflexivity|]). split; [auto|].
      unfold fatal. eexists. rewrite !app_assoc. reflexivity.
    + intros Heq; injection Heq as <-. split; [reflexivity|].
      exists cr, rest, tx, e. rewrite Htx. cbn [returned remaining].
      repeat (split; [reflexivity|]). split; [auto|].
      unfold fatal. eexists. rewrite !app_assoc. reflexivity.
  - intros Heq; injection Heq as <-. split; [reflexivity|].
    exists cr, rest, tx, e. rewrite Htx. cbn [returned remaining].
    repeat (split; [reflexivity|]). split; [auto|].
    unfold fatal. eexists. rewrite !app_assoc. reflexivity.
Qed.

Lemma main_fatal_only_after_collection_witness :
  exists contractResults rest transactions e,
    returned (fetchContractResults
                (inbox (sample_env_too_large
                          [sample_page "results" [sample_record "0xa1"] JNull;
                           blank])))
    = Some contractResults
    /\ remaining (fetchContractResults
                    (inbox (sample_env_too_large
                              [sample_page "results" [sample_record "0xa1"] JNull;
                               blank])))
       = Some rest
    /\ returned (fetchTransactionsFromContract rest) = Some transactions
    /\ (stringify
          (sample_env_too_large
             [sample_page "results" [sample_record "0xa1"] JNull; blank])
          (allData contractResults transactions
             (clock (sample_env_too_large
                       [sample_page "results" [sample_record "0xa1"] JNull;
                        blank])))
        = Throw e
        \/ (stringify
              (sample_env_too_large
                 [sample_page "results" [sample_record "0xa1"] JNull; blank])
              (allData contractResults transactions
                 (clock (sample_env_too_large
                           [sample_page "results" [sample_record "0xa1"] JNull;
                            blank])))
            = Normal tt
            /\ writeFileSync
                 (sample_env_too_large
                    [sample_page "results" [sample_record "0xa1"] JNull; blank])
               = Throw e)
        \/ (stringify
              (sample_env_too_large
                 [sample_page "results" [sample_record "0xa1"] JNull; blank])
              (allData contractResults transactions
                 (clock (sample_env_too_large
                           [sample_page "results" [sample_record "0xa1"] JNull;
                            blank])))
            = Normal tt
            /\ writeFileSync
                 (sample_env_too_large
                    [sample_page "results" [sample_record "0xa1"] JNull; blank])
               = Normal tt
            /\ statSync
                 (sample_env_too_large
                    [sample_page "results" [sample_record "0xa1"] JNull; blank])
               = Throw e))
    /\ exists tr,
        (main (sample_env_too_large
                 [sample_page "results" [sample_record "0xa1"] JNull; blank])).2
        = tr ++ [Stderr (Fatal e); Exit 1].
Proof.
  refine (proj2 (main_fatal_only_after_collection
                   (sample_env_too_large
                      [sample_page "results" [sample_record "0xa1"] JNull; blank])
                   1 _)).
  reflexivity.
Defined.

(** X10. When the snapshot is written but the stat that follows throws, the
    file stays written with the full snapshot, and the run still ends
    through the fatal path, with exit code 1. *)
Theorem stat_failure_after_write (env : Env) (e : string)
    (contractResults transactions : list JSON) (rest : list FetchOutcome) :
  returned (fetchContractResults (inbox env)) = Some contractResults ->
  remaining (fetchContractResults (inbox env)) = Some rest ->
  returned (fetchTransactionsFromContract rest) = Some transactions ->
  stringify env (allData contractResults transactions (clock env)) = Normal tt ->
  writeFileSync env = Normal tt ->
  statSync env = Throw e ->
  (main env).1 = Exited 1
  /\ written (main env).2
     = [allData contractResults transactions (clock env)]
  /\ exists tr, (main env).2 = tr ++ [Stderr (Fatal e); Exit 1].
Proof.
  intros Hret1 Hrem1 Hret2 Htext Hwrite Hstat. unfold main.
  pose proof (fetcher_no_write ContractResults (inbox env)) as Hw1.
  cbn [fetcher] in Hw1.
  destruct (fetchContractResults (inbox env)) as [cr rest0 tr1|tr1];
    cbn [returned remaining events] in *; [|discriminate].
  injection Hret1 as ->. injection Hrem1 as ->.
  pose proof (fetcher_no_write Transactions rest) as Hw2.
  cbn [fetcher] in Hw2.
  destruct (fetchTransactionsFromContract rest) as [tx rest' tr2|tr2];
    cbn [returned events] in *; [|discriminate].
  injection Hret2 as ->. rewrite Htext, Hwrite, Hstat. cbn [fst snd].
  split; [reflexivity|]. split.
  - do 4 rewrite written_app. rewrite Hw1, Hw2. reflexivity.
  - unfold fatal. eexists. rewrite !app_assoc. reflexivity.
Qed.

Lemma stat_failure_after_write_witness :
  (main (sample_env [sample_page "results" [sample_record "0xa1"] JNull; blank]
           (Normal tt) (Throw "ENOENT: no such file or directory, stat"))).1
  = Exited 1.
Proof.
  refine (proj1 (stat_failure_after_write
                   (sample_env
                      [sample_page "results" [sample_record "0xa1"] JNull; blank]
                      (Normal tt)
                      (Throw "ENOENT: no such file or directory, stat"))
                   "ENOENT: no such file or directory, stat"
                   [sample_record "0xa1"] [] [blank] _ _ _ _ _ _));
    reflexivity.
Defined.

Lemma main_writes_assembled_witness :
  exists contractResults transactions rest,
    returned (fetchContractResults [sample_error; blank]) = Some contractResults
    /\ remaining (fetchContractResults [sample_error; blank]) = Some rest
    /\ returned (fetchTransactionsFromContract rest) = Some transactions
    /\ allData [] [] "2025-12-02T09:30:00.000Z"
       = allData contractResults transactions "2025-12-02T09:30:00.000Z".
Proof.
  refine (main_writes_assembled
            (sample_env [sample_error; blank] (Normal tt) (Normal 512))
            (allData [] [] "2025-12-02T09:30:00.000Z") _).
  vm_compute. apply list_elem_of_here.
Defined.

(** X12. The streams are fetched one after the other: every request of the
    contract-results collector comes before the first request of the
    transactions collector, which runs on the outcomes the first one left;
    and [main] makes no other request. *)
Theorem main_requests_in_stream_order (env : Env) :
  requests (main env).2
  = requests (events (fetchContractResults (inbox env)))
    ++ match remaining (fetchContractResults (inbox env)) with
       | Some rest => requests (events (fetchTransactionsFromContract rest))
       | None => []
       end.
Proof.
  unfold main.
  destruct (fetchContractResults (inbox env)) as [cr rest tr1|tr1];
    cbn [remaining events snd].
  2:{ rewrite requests_app, app_nil_r. reflexivity. }
  destruct (fetchTransactionsFromContract rest) as [tx rest' tr2|tr2];
    cbn [events snd].
  2:{ do 2 rewrite requests_app. reflexivity. }
  destruct (stringify env _) as [[]|e]; cbn [snd].
  2:{ do 3 rewrite requests_app. cbn [fatal requests omap list_omap app].
      now rewrite app_nil_r. }
  destruct (writeFileSync env) as [[]|e]; cbn [snd].
  2:{ do 4 rewrite requests_app.
      destruct (truncates env); cbn [fatal requests omap list_omap app];
        now rewrite app_nil_r. }
  destruct (statSync env) as [size|e]; cbn [snd];
    do 4 rewrite requests_app; cbn [fatal requests omap list_omap app];
    now rewrite app_nil_r.
Qed.

(** ** Between the two streams *)

Lemma paginate_break_trace stream field o inbox url pageCount acc :
  url_truthy (Some url) = true ->
  failed o \/ empty_page field o ->
  exists quiet,
    paginate stream field (o :: inbox) (Some url) pageCount acc
    = Returned acc inbox
        (Stdout (Progress stream (pageCount + 1) (length acc))
           :: Fetch url :: quiet)
    /\ delays quiet = [] /\ requests quiet = [].
Proof.
  intros Hurl Hstop. cbn [paginate]. rewrite Hurl. cbn [url_text].
  destruct (try_page_effects field (pageCount + 1) acc o) as (Hreq & _ & Hdel).
  destruct Hstop as [Hfailed|Hempty].
  - destruct (try_page_failed field (pageCount + 1) acc o Hfailed)
      as (evs & e & Hpass & He & _).
    rewrite Hpass in *. cbn [pass pass_events pass_end pass_acc] in *.
    destruct He as [->|(m & ->)]; cbn [after app]; eexists;
      (split; [reflexivity|]); rewrite delays_app, requests_app, Hdel, Hreq;
      split; reflexivity.
  - rewrite (try_page_empty _ _ _ _ Hempty).
    cbn [pass pass_events pass_end pass_acc after app].
    eexists. split; [reflexivity|]. split; reflexivity.
Qed.

Lemma paginate_opening stream field inbox url :
  url_truthy (Some url) = true ->
  exists tl,
    events (paginate stream field inbox (Some url) 0 [])
    = Stdout (Progress stream 1 0) :: Fetch url :: tl.
Proof.
  intros Hurl. destruct inbox as [|o inbox]; cbn [paginate]; rewrite Hurl.
  - exists []. reflexivity.
  - rewrite events_after. eexists. reflexivity.
Qed.

Lemma fetcher_opening s inbox :
  exists tl, events (fetcher s inbox) = opening s (initial_url s) ++ tl.
Proof.
  rewrite fetcher_collect. unfold collect, opening.
  destruct (paginate_opening s (results_field s) inbox (initial_url s)
              (initial_url_truthy s)) as (tl & Htl).
  destruct (paginate _ _ _ _ _ _) as [all rest tr|tr];
    cbn [and_then after events] in *; rewrite Htl; eexists; cbn [app];
    reflexivity.
Qed.

Lemma main_trace_prefix env contractResults rest tr1 :
  fetchContractResults (inbox env) = Returned contractResults rest tr1 ->
  exists tl,
    (main env).2
    = banner ++ tr1 ++ events (fetchTransactionsFromContract rest) ++ tl.
Proof.
  intros Hrun. unfold main, banner. rewrite Hrun.
  destruct (fetchTransactionsFromContract rest) as [tx rest' tr2|tr2];
    cbn [events snd].
  2:{ exists []. now rewrite app_nil_r. }
  destruct (stringify env _) as [[]|e]; cbn [snd];
    [destruct (writeFileSync env) as [[]|e]; cbn [snd];
     [destruct (statSync env) as [size|e]; cbn [snd]|]|];
    eexists; reflexivity.
Qed.

(** X13. No delay separates the two streams when the first loop ends on a
    failed request or on an empty page: the first request for transactions
    is the next request after the one that ended the first loop, and no
    [sleep] lies between them. *)
Theorem no_delay_between_streams_after_break (env : Env)
    (os1 : list FetchOutcome) (ps1 : list (list JSON * string))
    (e1 : FetchOutcome) (rest : list FetchOutcome) :
  inbox env = os1 ++ e1 :: rest ->
  Forall2 (full_page "results") os1 ps1 ->
  failed e1 \/ empty_page "results" e1 ->
  exists t1 mid t2,
    (main env).2
    = t1 ++ Fetch (cursor results_url ps1) :: mid
         ++ Fetch transactions_url :: t2
    /\ delays mid = [] /\ requests mid = [].
Proof.
  intros Hinbox Hfull Hstop.
  destruct (paginate_full_pages ContractResults "results" os1 ps1 Hfull
              (e1 :: rest) results_url 0 []
              (initial_url_truthy ContractResults)) as (trp & Hpages & _).
  destruct (paginate_break_trace ContractResults "results" e1 rest
              (cursor results_url ps1) (0 + Z.of_nat (length os1))
              ([] ++ concat ps1.*1)
              (cursor_truthy results_url ps1 (initial_url_truthy ContractResults))
              Hstop)
    as (quiet & Hlast & Hdel & Hreq).
  rewrite Hlast in Hpages. cbn [after] in Hpages.
  assert (Hrun : fetchContractResults (inbox env)
                 = Returned ([] ++ concat ps1.*1) rest
                     ([Stdout (Fetching ContractResults)]
                        ++ (trp
                              ++ Stdout (Progress ContractResults
                                           (0 + Z.of_nat (length os1) + 1)
                                           (length ([] ++ concat ps1.*1)))
                              :: Fetch (cursor results_url ps1) :: quiet)
                        ++ [Stdout (Found ContractResults
                                      (length ([] ++ concat ps1.*1)))])).
  { rewrite fetchContractResults_collect. unfold collect.
    rewrite Hinbox, Hpages. reflexivity. }
  destruct (main_trace_prefix env _ _ _ Hrun) as (tl & ->).
  destruct (fetcher_opening Transactions rest) as (tl2 & Hopen).
  cbn [fetcher initial_url] in Hopen. rewrite Hopen. unfold opening.
  exists (banner ++ [Stdout (Fetching ContractResults)] ++ trp
            ++ [Stdout (Progress ContractResults
                          (0 + Z.of_nat (length os1) + 1)
                          (length ([] ++ concat ps1.*1)))]),
    (quiet ++ [Stdout (Found ContractResults (length ([] ++ concat ps1.*1)));
               Stdout (Fetching Transactions);
               Stdout (Progress Transactions 1 0)]),
    (tl2 ++ tl).
  split.
  - repeat (rewrite <- app_assoc; cbn [app]). reflexivity.
  - rewrite delays_app, requests_app, Hdel, Hreq. split; reflexivity.
Qed.

Lemma no_delay_between_streams_after_break_witness :
  exists t1 mid t2,
    (main (sample_env [sample_error; blank] (Normal tt) (Normal 512))).2
    = t1 ++ Fetch results_url :: mid ++ Fetch transactions_url :: t2
    /\ delays mid = [] /\ requests mid = [].
Proof.
  refine (no_delay_between_streams_after_break
            (sample_env [sample_error; blank] (Normal tt) (Normal 512))
            [] [] sample_error [blank] _ _ _).
  - reflexivity.
  - constructor.
  - left. right; left. eexists; split; reflexivity.
Defined.

Lemma paginate_final_trace stream field o items inbox url pageCount acc :
  url_truthy (Some url) = true ->
  final_page field o items ->
  paginate stream field (o :: inbox) (Some url) pageCount acc
  = Returned (acc ++ items) inbox
      [Stdout (Progress stream (pageCount + 1) (length acc)); Fetch url;
       Stdout NoMorePages; Sleep 200].
Proof.
  intros Hurl Hfinal. cbn [paginate]. rewrite Hurl.
  rewrite (try_page_final _ _ _ _ _ Hfinal).
  cbn [pass pass_events pass_end pass_acc]. now rewrite paginate_null.
Qed.

(** X14. When the first loop ends on a last page without a next link, the
    delay that follows that page comes before the first request for
    transactions: exactly one [sleep(200)] lies between the two requests. *)
Theorem delay_between_streams_after_last_page (env : Env)
    (os1 : list FetchOutcome) (ps1 : list (list JSON * string))
    (e1 : FetchOutcome) (items : list JSON) (rest : list FetchOutcome) :
  inbox env = os1 ++ e1 :: rest ->
  Forall2 (full_page "results") os1 ps1 ->
  final_page "results" e1 items ->
  exists t1 mid t2,
    (main env).2
    = t1 ++ Fetch (cursor results_url ps1) :: mid
         ++ Fetch transactions_url :: t2
    /\ delays mid = [200] /\ requests mid = [].
Proof.
  intros Hinbox Hfull Hfinal.
  destruct (paginate_full_pages ContractResults "results" os1 ps1 Hfull
              (e1 :: rest) results_url 0 []
              (initial_url_truthy ContractResults)) as (trp & Hpages & _).
  rewrite (paginate_final_trace ContractResults "results" e1 items rest
             (cursor results_url ps1) (0 + Z.of_nat (length os1))
             ([] ++ concat ps1.*1)
             (cursor_truthy results_url ps1 (initial_url_truthy ContractResults))
             Hfinal) in Hpages.
  cbn [after] in Hpages.
  assert (Hrun : fetchContractResults (inbox env)
                 = Returned (([] ++ concat ps1.*1) ++ items) rest
                     ([Stdout (Fetching ContractResults)]
                        ++ (trp
                              ++ [Stdout (Progress ContractResults
                                            (0 + Z.of_nat (length os1) + 1)
                                            (length ([] ++ concat ps1.*1)));
                                  Fetch (cursor results_url ps1);
                                  Stdout NoMorePages; Sleep 200])
                        ++ [Stdout (Found ContractResults
                                      (length (([] ++ concat ps1.*1) ++ items)))])).
  { rewrite fetchContractResults_collect. unfold collect.
    rewrite Hinbox, Hpages. reflexivity. }
  destruct (main_trace_prefix env _ _ _ Hrun) as (tl & ->).
  destruct (fetcher_opening Transactions rest) as (tl2 & Hopen).
  cbn [fetcher initial_url] in Hopen. rewrite Hopen. unfold opening.
  exists (banner ++ [Stdout (Fetching ContractResults)] ++ trp
            ++ [Stdout (Progress ContractResults
                          (0 + Z.of_nat (length os1) + 1)
                          (length ([] ++ concat ps1.*1)))]),
    [Stdout NoMorePages; Sleep 200;
     Stdout (Found ContractResults (length (([] ++ concat ps1.*1) ++ items)));
     Stdout (Fetching Transactions);
     Stdout (Progress Transactions 1 0)],
    (tl2 ++ tl).
  split.
  - repeat (rewrite <- app_assoc; cbn [app]). reflexivity.
  - split; reflexivity.
Qed.

Lemma delay_between_streams_after_last_page_witness :
  exists t1 mid t2,
    (main (sample_env [sample_page "results" [sample_record "0xa1"] JNull; blank]
             (Normal tt) (Normal 512))).2
    = t1 ++ Fetch results_url :: mid ++ Fetch transactions_url :: t2
    /\ delays mid = [200] /\ requests mid = [].
Proof.
  refine (delay_between_streams_after_last_page
            (sample_env [sample_page "results" [sample_record "0xa1"] JNull; blank]
               (Normal tt) (Normal 512))
            [] [] (sample_page "results" [sample_record "0xa1"] JNull)
            [sample_record "0xa1"] [blank] _ _ _).
  - reflexivity.
  - constructor.
  - eexists; split; [split; [eexists; split; [reflexivity|split; reflexivity]
                            |split; [reflexivity|discriminate]]
                    |eexists; split; reflexivity].
Defined.

(** ** What [main] leaves on disk *)

Lemma files_app tr1 tr2 : files (tr1 ++ tr2) = files tr1 ++ files tr2.
Proof. apply omap_app. Qed.

Lemma paginate_no_file stream field inbox :
  forall url pageCount acc,
    files (events (paginate stream field inbox url pageCount acc)) = [].
Proof.
  induction inbox as [|o inbox IH]; intros url pageCount acc; cbn [paginate];
    destruct (url_truthy url); try reflexivity.
  rewrite events_after, !files_app.
  change (files [_; Fetch _]) with (@nil string). cbn [app].
  assert (Hpass : files (pass_events (try_page field (pageCount + 1) acc o)) = []).
  { unfold try_page, bind. repeat case_match; reflexivity. }
  rewrite Hpass. cbn [app].
  destruct (pass_end _) as [[|next]|e]; try reflexivity. apply IH.
Qed.

Lemma fetcher_no_file s inbox : files (events (fetcher s inbox)) = [].
Proof.
  rewrite fetcher_collect. unfold collect.
  pose proof (paginate_no_file s (results_field s) inbox
                (Some (initial_url s)) 0 []) as H.
  destruct (paginate _ _ _ _ _ _) as [a rest tr|tr];
    cbn [and_then after events] in *.
  - do 2 rewrite files_app. now rewrite H.
  - rewrite files_app. now rewrite H.
Qed.

(** X15. A run writes at most one file, and no other file than
    [dexpay_contract_calls_2025.json]; a run that is still waiting for a
    response has written nothing. *)
Theorem main_writes_one_file_at_most (env : Env) :
  (files (main env).2 = [] \/ files (main env).2 = [filename])
  /\ ((main env).1 = Stalled -> files (main env).2 = []).
Proof.
  unfold main.
  pose proof (fetcher_no_file ContractResults (inbox env)) as Hf1.
  cbn [fetcher] in Hf1.
  destruct (fetchContractResults (inbox env)) as [cr rest tr1|tr1];
    cbn [events fst snd] in *.
  2:{ rewrite files_app, Hf1. split; [now left|reflexivity]. }
  pose proof (fetcher_no_file Transactions rest) as Hf2.
  cbn [fetcher] in Hf2.
  destruct (fetchTransactionsFromContract rest) as [tx rest' tr2|tr2];
    cbn [events fst snd] in *.
  2:{ do 2 rewrite files_app. rewrite Hf1, Hf2. split; [now left|reflexivity]. }
  destruct (stringify env _) as [[]|e]; cbn [fst snd].
  2:{ do 3 rewrite files_app. rewrite Hf1, Hf2.
      split; [now left|discriminate]. }
  destruct (writeFileSync env) as [[]|e]; cbn [fst snd].
  2:{ do 4 rewrite files_app. rewrite Hf1, Hf2.
      destruct (truncates env); (split; [|discriminate]);
        [now right|now left]. }
  destruct (statSync env) as [size|e]; cbn [fst snd];
    do 4 rewrite files_app; rewrite Hf1, Hf2;
    (split; [now right|discriminate]).
Qed.

Lemma main_writes_one_file_at_most_witness :
  files (main (sample_env [sample_error] (Normal tt) (Normal 512))).2 = [].
Proof.
  refine (proj2 (main_writes_one_file_at_most
                   (sample_env [sample_error] (Normal tt) (Normal 512))) _).
  reflexivity.
Defined.
